(** * moviepy: ffmpeg metadata parsing and still-image clips

    A shallow embedding of [moviepy/video/io/ffmpeg_parse_infos.py] and
    [moviepy/video/ImageClip.py], and the properties of the two modules.

    Modelling conventions.
    - Python [str] values are lists of characters ([list ascii]); only code
      points below 256 are represented, so that the class [\d] of the
      [re] module coincides with [[0-9]].
    - Python exceptions are values of [exn]; a computation that may raise
      has type [result A].
    - Python [float] values are idealised as exact rationals kept in lowest
      terms ([Q], normalised by [Qred]); a Python [int] is a [Z].
    - The subprocess, the image decoder and the helpers imported from other
      modules are parameters of the sections that use them. *)

From Stdlib Require Import Ascii String.
From Stdlib Require Import List ZArith QArith Qabs Qreduction Bool Lia Lqa.
Import ListNotations.

Local Open Scope char_scope.
Local Open Scope list_scope.

(** ** Strings *)

Definition str := list ascii.

Definition lit (s : string) : str := list_ascii_of_string s.

Definition LF : ascii := ascii_of_nat 10.
Definition CR : ascii := ascii_of_nat 13.

Definition chr_in (c : ascii) (codes : list nat) : bool :=
  existsb (Nat.eqb (nat_of_ascii c)) codes.

(** White space skipped by [int()] and [float()] around a number. *)
Definition is_space (c : ascii) : bool :=
  chr_in c [9; 10; 11; 12; 13; 32; 133; 160]%nat.

(** Line boundaries of [str.splitlines()]. *)
Definition is_linebreak (c : ascii) : bool :=
  chr_in c [10; 11; 12; 13; 28; 29; 30; 133]%nat.

Definition is_digit (c : ascii) : bool :=
  let n := nat_of_ascii c in (48 <=? n)%nat && (n <=? 57)%nat.

Definition digit_val (c : ascii) : Z := Z.of_nat (nat_of_ascii c) - 48.

Fixpoint str_eqb (a b : str) : bool :=
  match a, b with
  | [], [] => true
  | x :: a', y :: b' => Ascii.eqb x y && str_eqb a' b'
  | _, _ => false
  end.

Fixpoint startswith (s p : str) : bool :=
  match p, s with
  | [], _ => true
  | x :: p', y :: s' => Ascii.eqb x y && startswith s' p'
  | _ :: _, [] => false
  end.

Definition endswith (s p : str) : bool := startswith (rev s) (rev p).

(** [p in s] for strings. *)
Fixpoint contains (p s : str) : bool :=
  startswith s p ||
  match s with
  | [] => false
  | _ :: s' => contains p s'
  end.

(** [s[a:b]] for non-negative indices. *)
Definition slice (s : str) (a b : nat) : str := firstn (b - a) (skipn a s).

(** [s.split(sep)] for a one-character separator. *)
Fixpoint split_chr (sep : ascii) (s : str) : list str :=
  match s with
  | [] => [[]]
  | c :: s' =>
      if Ascii.eqb c sep then [] :: split_chr sep s'
      else match split_chr sep s' with
           | w :: ws => (c :: w) :: ws
           | [] => [[c]]
           end
  end.

(** [s.replace(c, '')] for a one-character pattern. *)
Definition remove_chr (c : ascii) (s : str) : str :=
  filter (fun x => negb (Ascii.eqb x c)) s.

(** [''.join(l)]. *)
Definition join (l : list str) : str := List.concat l.

Fixpoint lstrip (s : str) : str :=
  match s with
  | c :: s' => if is_space c then lstrip s' else s
  | [] => []
  end.

Definition strip (s : str) : str := rev (lstrip (rev (lstrip s))).

Fixpoint splitlines_from (cur : str) (s : str) : list str :=
  match s with
  | [] => match cur with [] => [] | _ => [rev cur] end
  | c :: s' =>
      if Ascii.eqb c CR then
        match s' with
        | d :: s'' =>
            if Ascii.eqb d LF then rev cur :: splitlines_from [] s''
            else rev cur :: splitlines_from [] s'
        | [] => rev cur :: splitlines_from [] s'
        end
      else if is_linebreak c then rev cur :: splitlines_from [] s'
      else splitlines_from (c :: cur) s'
  end.

(** [s.splitlines()]. *)
Definition splitlines (s : str) : list str := splitlines_from [] s.

(** ** Exceptions *)

Inductive exn : Type :=
| IndexError
| AttributeError
| ValueError
| TypeError
| ZeroDivisionError
| AssertionError
| RecursionError
| KeyError (key : str)
| IOError (msg : str).

Inductive result (A : Type) : Type :=
| Ok (a : A)
| Raise (e : exn).

Arguments Ok {A} a.
Arguments Raise {A} e.

Definition bind {A B : Type} (m : result A) (f : A -> result B) : result B :=
  match m with
  | Ok a => f a
  | Raise e => Raise e
  end.

Notation "x <- m ;; k" := (bind m (fun x => k))
  (at level 61, m at next level, right associativity).

(** [try: m  except: h] with a bare [except] or [except Exception]. *)
Definition try_except {A : Type} (m : result A) (h : exn -> result A) : result A :=
  match m with
  | Ok a => Ok a
  | Raise e => h e
  end.

(** [l[0]] and [l[-1]] on a list. *)
Definition index_first {A : Type} (l : list A) : result A :=
  match l with
  | x :: _ => Ok x
  | [] => Raise IndexError
  end.

Definition index_last {A : Type} (l : list A) : result A :=
  index_first (rev l).

(** [l[i]] for a non-negative index. *)
Definition index_nth {A : Type} (l : list A) (i : nat) : result A :=
  match nth_error l i with
  | Some x => Ok x
  | None => Raise IndexError
  end.

(** ** Numbers *)

Definition float := Q.

Definition fmul (a b : float) : float := Qred (a * b).
Definition fsub (a b : float) : float := Qred (a - b).

(** [a / b] on floats. *)
Definition fdiv (a b : float) : result float :=
  if Qeq_bool b 0 then Raise ZeroDivisionError else Ok (Qred (a / b)).

Definition fabs (a : float) : float := Qabs a.
Definition flt (a b : float) : bool := negb (Qle_bool b a).
Definition fle (a b : float) : bool := Qle_bool a b.
Definition feq (a b : float) : bool := Qeq_bool a b.

(** Truth value of a number: zero is false. *)
Definition truthy (a : float) : bool := negb (Qeq_bool a 0).

Definition of_int (n : Z) : float := inject_Z n.

(** [int(x)] on a float: truncation toward zero. *)
Definition int_of_float (a : float) : Z := Z.quot (Qnum a) (Zpos (Qden a)).

(** A [digitpart] of the numeric grammar: digits, with single underscores
    allowed between two digits.  Returns the value and the number of digits. *)
Fixpoint digitpart_from (acc : Z) (n : nat) (after_us : bool) (s : str)
  : option (Z * nat) :=
  match s with
  | [] => if after_us then None else Some (acc, n)
  | c :: s' =>
      if is_digit c then digitpart_from (10 * acc + digit_val c) (S n) false s'
      else if Ascii.eqb c "_" then
        if after_us || Nat.eqb n 0 then None else digitpart_from acc n true s'
      else None
  end.

Definition digitpart (s : str) : option (Z * nat) :=
  match s with
  | [] => None
  | _ => digitpart_from 0 0 false s
  end.

Definition split_sign (s : str) : bool * str :=
  match s with
  | c :: t => if Ascii.eqb c "-" then (true, t)
              else if Ascii.eqb c "+" then (false, t)
              else (false, s)
  | [] => (false, s)
  end.

(** [int(s)] on a string, base ten. *)
Definition int_of_str (s : str) : result Z :=
  let (neg, body) := split_sign (strip s) in
  match digitpart body with
  | Some (v, _) => Ok (if neg then (- v)%Z else v)
  | None => Raise ValueError
  end.

(** Splits [s] at the first character satisfying [p]. *)
Fixpoint break_at (p : ascii -> bool) (s : str) : str * option str :=
  match s with
  | [] => ([], None)
  | c :: s' =>
      if p c then ([], Some s')
      else let (a, b) := break_at p s' in (c :: a, b)
  end.

Definition pow10 (n : nat) : Z := Z.pow 10 (Z.of_nat n).

(** The mantissa [digitpart], [digitpart "."], [[digitpart] "." digitpart]
    as a pair (numerator, number of decimals). *)
Definition mantissa (s : str) : option (Z * nat) :=
  match break_at (Ascii.eqb ".") s with
  | (ip, None) =>
      match digitpart ip with
      | Some (v, _) => Some (v, 0%nat)
      | None => None
      end
  | (ip, Some fp) =>
      match ip, fp with
      | [], [] => None
      | _, [] =>
          match digitpart ip with
          | Some (v, _) => Some (v, 0%nat)
          | None => None
          end
      | [], _ => digitpart fp
      | _, _ =>
          match digitpart ip, digitpart fp with
          | Some (v, _), Some (w, n) => Some (v * pow10 n + w, n)%Z
          | _, _ => None
          end
      end
  end.

Definition exponent (s : str) : option Z :=
  let (neg, body) := split_sign s in
  match digitpart body with
  | Some (v, _) => Some (if neg then (- v)%Z else v)
  | None => None
  end.

Definition scale10 (m : Z) (e : Z) : float :=
  if (0 <=? e)%Z then Qred (inject_Z (m * Z.pow 10 e))
  else Qred (Qmake m (Z.to_pos (Z.pow 10 (- e)))).

(** [float(s)] on a string in decimal notation.  The literals [inf] and
    [nan] are not represented: no token cut out by the patterns below can
    spell them. *)
Definition float_of_str (s : str) : result float :=
  let (neg, body) := split_sign (strip s) in
  let (mant, ex) := break_at (fun c => Ascii.eqb c "e" || Ascii.eqb c "E") body in
  match mantissa mant with
  | None => Raise ValueError
  | Some (m, n) =>
      let m := if neg then (- m)%Z else m in
      match ex with
      | None => Ok (scale10 m (- Z.of_nat n))
      | Some es =>
          match exponent es with
          | Some e => Ok (scale10 m (e - Z.of_nat n))
          | None => Raise ValueError
          end
      end
  end.

(** ** Regular expressions

    The fragment of Python's [re] syntax used by the two modules, with the
    backtracking semantics of the [re] engine: alternatives are tried left
    to right, repetitions are greedy, and [search] returns the leftmost
    match. *)

Inductive regex : Type :=
| Chr (c : ascii)                (* a literal character *)
| Dot                            (* [.] : any character but a newline *)
| Cls (p : ascii -> bool)        (* a character class *)
| Star (p : ascii -> bool)       (* [[...]*] on a class *)
| Opt (c : ascii)                (* [c?] *)
| Alt (r1 r2 : regex)            (* [r1|r2] *)
| Cat (r1 r2 : regex)            (* [r1 r2] *)
| Grp (r : regex)                (* [(r)] *)
| Eol.                           (* [$] *)

Definition Plus (p : ascii -> bool) : regex := Cat (Cls p) (Star p).

Fixpoint Lit (s : str) : regex :=
  match s with
  | [] => Star (fun _ => false)
  | [c] => Chr c
  | c :: s' => Cat (Chr c) (Lit s')
  end.

Section Matcher.

Context {A : Type}.

Definition or_else (a b : option A) : option A :=
  match a with
  | Some x => Some x
  | None => b
  end.

Fixpoint star (p : ascii -> bool) (s : str) (k : str -> option A) : option A :=
  match s with
  | c :: s' => if p c then or_else (star p s' k) (k s) else k s
  | [] => k s
  end.

(** [run r s caps k]: match [r] at the head of [s], then continue with [k]
    on the rest of the string and the groups closed so far. *)
Fixpoint run (r : regex) (s : str) (caps : list str)
  (k : str -> list str -> option A) : option A :=
  match r with
  | Chr c =>
      match s with
      | x :: s' => if Ascii.eqb x c then k s' caps else None
      | [] => None
      end
  | Dot =>
      match s with
      | x :: s' => if Ascii.eqb x LF then None else k s' caps
      | [] => None
      end
  | Cls p =>
      match s with
      | x :: s' => if p x then k s' caps else None
      | [] => None
      end
  | Star p => star p s (fun s' => k s' caps)
  | Opt c =>
      match s with
      | x :: s' => if Ascii.eqb x c then or_else (k s' caps) (k s caps) else k s caps
      | [] => k s caps
      end
  | Alt r1 r2 => or_else (run r1 s caps k) (run r2 s caps k)
  | Cat r1 r2 => run r1 s caps (fun s' caps' => run r2 s' caps' k)
  | Grp r1 =>
      run r1 s caps
        (fun s' caps' => k s' (caps' ++ [firstn (length s - length s') s]))
  | Eol =>
      match s with
      | [] => k s caps
      | [c] => if Ascii.eqb c LF then k s caps else None
      | _ => None
      end
  end.

End Matcher.

(** A match object: [start()], [end()] and the groups [group(1)], ... *)
Record rmatch : Type := MkMatch {
  m_start : nat;
  m_end : nat;
  m_groups : list str
}.

(** The match of [r] starting exactly at the head of [s] (as [re.match]),
    reported at offset [pos]. *)
Definition match_at (r : regex) (pos : nat) (s : str) : option rmatch :=
  run r s [] (fun s' caps =>
    Some (MkMatch pos (pos + (length s - length s')) caps)).

Fixpoint search_from (r : regex) (pos : nat) (s : str) : option rmatch :=
  match match_at r pos s with
  | Some m => Some m
  | None =>
      match s with
      | [] => None
      | _ :: s' => search_from r (S pos) s'
      end
  end.

(** [re.search(r, s)]. *)
Definition re_search (r : regex) (s : str) : option rmatch := search_from r 0 s.

(** [m.group(i)] for [i >= 1]. *)
Definition group (m : rmatch) (i : nat) : str := nth (i - 1) (m_groups m) [].

(** [re.findall(r, s)] for a pattern with exactly one group that never matches
    the empty string: the group of each successive non-overlapping match. *)
Fixpoint findall_fuel (fuel : nat) (r : regex) (s : str) : list str :=
  match fuel with
  | O => []
  | S fuel' =>
      match re_search r s with
      | None => []
      | Some m => group m 1 :: findall_fuel fuel' r (skipn (Nat.max 1 (m_end m)) s)
      end
  end.

Definition re_findall (r : regex) (s : str) : list str :=
  findall_fuel (S (length s)) r s.

(** Method calls on the result of [re.search]: [None] has no attributes. *)
Definition the_match (m : option rmatch) : result rmatch :=
  match m with
  | Some x => Ok x
  | None => Raise AttributeError
  end.

Fixpoint Seq (rs : list regex) : regex :=
  match rs with
  | [] => Star (fun _ => false)
  | [r] => r
  | r :: rs' => Cat r (Seq rs')
  end.

(** ** [moviepy/video/io/ffmpeg_parse_infos.py] *)

(** A value of the field [audio_fps]: the string ['unknown'], [None] or an
    [int]. *)
Inductive rate_value : Type :=
| StrUnknown
| PyNone
| PyInt (n : Z).

Record VideoMetaData : Type := MkMeta {
  duration : option float;
  size : option (Z * Z);
  video_found : bool;
  video_fps : option float;
  video_n_frames : option Z;
  video_duration : option float;
  video_rotation : Z;
  video_size : option (Z * Z);
  audio_found : bool;
  audio_fps : rate_value
}.

(** [VideoMetaData()]: the defaults of the dataclass. *)
Definition VideoMetaData_default : VideoMetaData :=
  {| duration := None;
     size := None;
     video_found := false;
     video_fps := None;
     video_n_frames := None;
     video_duration := None;
     video_rotation := 0;
     video_size := None;
     audio_found := false;
     audio_fps := StrUnknown |}.

Definition set_duration (m : VideoMetaData) (v : float) : VideoMetaData :=
  MkMeta (Some v) (size m) (video_found m) (video_fps m) (video_n_frames m)
    (video_duration m) (video_rotation m) (video_size m) (audio_found m) (audio_fps m).

Definition set_video_found (m : VideoMetaData) (v : bool) : VideoMetaData :=
  MkMeta (duration m) (size m) v (video_fps m) (video_n_frames m)
    (video_duration m) (video_rotation m) (video_size m) (audio_found m) (audio_fps m).

Definition set_video_fps (m : VideoMetaData) (v : float) : VideoMetaData :=
  MkMeta (duration m) (size m) (video_found m) (Some v) (video_n_frames m)
    (video_duration m) (video_rotation m) (video_size m) (audio_found m) (audio_fps m).

Definition set_video_n_frames (m : VideoMetaData) (v : Z) : VideoMetaData :=
  MkMeta (duration m) (size m) (video_found m) (video_fps m) (Some v)
    (video_duration m) (video_rotation m) (video_size m) (audio_found m) (audio_fps m).

Definition set_video_duration (m : VideoMetaData) (v : float) : VideoMetaData :=
  MkMeta (duration m) (size m) (video_found m) (video_fps m) (video_n_frames m)
    (Some v) (video_rotation m) (video_size m) (audio_found m) (audio_fps m).

Definition set_video_rotation (m : VideoMetaData) (v : Z) : VideoMetaData :=
  MkMeta (duration m) (size m) (video_found m) (video_fps m) (video_n_frames m)
    (video_duration m) v (video_size m) (audio_found m) (audio_fps m).

Definition set_video_size (m : VideoMetaData) (v : Z * Z) : VideoMetaData :=
  MkMeta (duration m) (size m) (video_found m) (video_fps m) (video_n_frames m)
    (video_duration m) (video_rotation m) (Some v) (audio_found m) (audio_fps m).

Definition set_audio (m : VideoMetaData) (v : bool * rate_value) : VideoMetaData :=
  MkMeta (duration m) (size m) (video_found m) (video_fps m) (video_n_frames m)
    (video_duration m) (video_rotation m) (video_size m) (fst v) (snd v).

Definition digit_or_dot (c : ascii) : bool := is_digit c || Ascii.eqb c ".".

(** ['\d+x\d+'] *)
Definition re_video_line : regex :=
  Seq [Plus is_digit; Chr "x"; Plus is_digit].

(** ["( [0-9]*.| )[0-9]* tbr"] *)
Definition re_tbr : regex :=
  Seq [Grp (Alt (Seq [Chr " "; Star is_digit; Dot]) (Chr " "));
       Star is_digit; Lit (lit " tbr")].

(** [" ([0-9.]+)(k?) fps"] *)
Definition re_fps : regex :=
  Seq [Chr " "; Grp (Plus digit_or_dot); Grp (Opt "k"); Lit (lit " fps")].

(** [" [0-9]* Hz"] *)
Definition re_hz : regex :=
  Seq [Chr " "; Star is_digit; Lit (lit " Hz")].

(** ['\d+$'] *)
Definition re_trailing_int : regex := Seq [Plus is_digit; Eol].

(** [" [0-9]*x[0-9]*(,| )"] *)
Definition re_size : regex :=
  Seq [Chr " "; Star is_digit; Chr "x"; Star is_digit;
       Grp (Alt (Chr ",") (Chr " "))].

(** ["([0-9][0-9]:[0-9][0-9]:[0-9][0-9].[0-9][0-9])"] *)
Definition re_timestamp : regex :=
  Grp (Seq [Cls is_digit; Cls is_digit; Chr ":"; Cls is_digit; Cls is_digit; Chr ":";
            Cls is_digit; Cls is_digit; Dot; Cls is_digit; Cls is_digit]).

(** [r"(\d+)/(\d+)\|(\d+)"] *)
Definition re_rate_count : regex :=
  Seq [Grp (Plus is_digit); Chr "/"; Grp (Plus is_digit); Chr "|"; Grp (Plus is_digit)].

Definition rotate_marker : str := lit "rotate          :".

Definition get_tbr (line : str) : result float :=
  m <- the_match (re_search re_tbr line) ;;
  s_tbr <- index_nth (split_chr " " (slice line (m_start m) (m_end m))) 1 ;;
  if contains (lit "k") s_tbr then
    v <- float_of_str (remove_chr "k" s_tbr) ;;
    Ok (fmul v 1000)
  else
    float_of_str s_tbr.

Definition get_fps (line : str) : result float :=
  m <- the_match (re_search re_fps line) ;;
  fps <- float_of_str (group m 1) ;;
  if str_eqb (group m 2) (lit "k") then Ok (fmul fps 1000) else Ok fps.

(** The result of [try: x = f() except: ...] with [x] preset to [None]. *)
Definition or_none {A : Type} (m : result A) : option A :=
  match m with
  | Ok a => Some a
  | Raise _ => None
  end.

(** The condition [v and v <= 1e3] for [v] a float or [None]; when it holds
    the branch returns [v]. *)
Definition usable (v : option float) : option float :=
  match v with
  | Some x => if truthy x && fle x 1000 then Some x else None
  | None => None
  end.

Definition default_fps : float := 30.

Definition parse_video_fps (line : str) (fps_source : str) : result float :=
  let fps_by_tbr := or_none (get_tbr line) in
  let fps_by_fps := or_none (get_fps line) in
  sel <- (if str_eqb fps_source (lit "tbr") then Ok (fps_by_tbr, fps_by_fps)
          else if str_eqb fps_source (lit "fps") then Ok (fps_by_fps, fps_by_tbr)
          else Raise (KeyError fps_source)) ;;
  let (primary_fps, fallback_fps) := (sel : option float * option float) in
  match usable primary_fps with
  | Some p => Ok p
  | None =>
      match usable fallback_fps with
      | Some f => Ok f
      | None => Ok default_fps
      end
  end.

Definition roughly_equal (a b : float) (epsilon : float) : result bool :=
  q <- fdiv a b ;;
  Ok (flt (fabs (fsub q 1)) epsilon).

Definition coef : float := Qred (1000 / 1001).

Fixpoint adjust_fps_loop (fps : float) (xs : list Z) : result float :=
  match xs with
  | [] => Ok fps
  | x :: xs' =>
      if negb (feq fps (of_int x)) then
        near <- roughly_equal fps (fmul (of_int x) coef) (1 # 100) ;;
        if near then Ok (fmul (of_int x) coef) else adjust_fps_loop fps xs'
      else adjust_fps_loop fps xs'
  end.

Definition adjust_fps (fps : float) : result float :=
  adjust_fps_loop fps [23; 24; 25; 30; 50]%Z.

Definition parse_audio_infos (lines : list str) : bool * rate_value :=
  let lines_audio := filter (contains (lit " Audio: ")) lines in
  let audio_found := match lines_audio with [] => false | _ => true end in
  let audio_fps :=
    match lines_audio with
    | [] => PyNone
    | line :: _ =>
        match (m <- the_match (re_search re_hz line) ;;
               int_of_str (slice line (m_start m + 1) (m_end m - 3))) with
        | Ok n => PyInt n
        | Raise _ => PyNone
        end
    end in
  (audio_found, audio_fps).

Definition rotation_error (rotation_lines : list str) : exn :=
  IOError (lit "MoviePy error: failed to read video rotation in file." ++ [LF] ++
           lit "Here are the file infos returned by ffmpeg:" ++ [LF; LF] ++
           join rotation_lines).

(** The condition of the comprehension that selects the rotation lines. *)
Definition is_rotation_line (l : str) : bool :=
  contains rotate_marker l &&
  match re_search re_trailing_int l with Some _ => true | None => false end.

Definition parse_rotation (lines : list str) : result Z :=
  let rotation_lines := filter is_rotation_line lines in
  try_except
    (match rotation_lines with
     | rotation_line :: _ =>
         m <- the_match (re_search re_trailing_int rotation_line) ;;
         int_of_str (slice rotation_line (m_start m) (m_end m))
     | [] => Ok 0%Z
     end)
    (fun _ => Raise (rotation_error rotation_lines)).

Definition size_error (line : str) : exn :=
  IOError (lit "MoviePy error: failed to read video dimensions in file." ++ [LF] ++
           lit "Here are the file infos returned by ffmpeg:" ++ [LF; LF] ++
           line).

Definition parse_video_size (line : str) : result (Z * Z) :=
  try_except
    (m <- the_match (re_search re_size line) ;;
     let s := split_chr "x" (slice line (m_start m) (m_end m - 1)) in
     s0 <- index_nth s 0 ;;
     w <- int_of_str s0 ;;
     s1 <- index_nth s 1 ;;
     h <- int_of_str s1 ;;
     Ok (w, h))
    (fun _ => Raise (size_error line)).

Definition is_video_line (l : str) : bool :=
  contains (lit " Video: ") l &&
  match re_search re_video_line l with Some _ => true | None => false end.

Definition not_found_error (filename : str) : exn :=
  IOError (lit "MoviePy error: the file " ++ filename ++
           lit " could not be found!" ++ [LF] ++
           lit "Please check that you entered the correct path.").

Section External.

(** The subprocess: the decoded standard output and standard error of a
    command line. *)
Variable popen : list str -> str * str.

(** [moviepy.config.FFMPEG_BINARY]. *)
Variable FFMPEG_BINARY : str.

(** [moviepy.tools.convert_to_seconds], on a string. *)
Variable convert_to_seconds : str -> result float.

Definition call_command (cmd : list str) (stream : str) : result str :=
  let (output, error) := popen cmd in
  if str_eqb stream (lit "stdout") then Ok output
  else if str_eqb stream (lit "stderr") then Ok error
  else Raise ValueError.

Definition get_raw_metadata (filename : str) : result str :=
  let is_GIF := endswith filename (lit ".gif") in
  let cmd := [FFMPEG_BINARY; lit "-i"; filename] ++
             (if is_GIF then [lit "-f"; lit "null"; lit "/dev/null"] else []) in
  infos <- call_command cmd (lit "stderr") ;;
  last <- index_last (splitlines infos) ;;
  if contains (lit "No such file or directory") last
  then Raise (not_found_error filename)
  else Ok infos.

Definition parse_duration (is_GIF : bool) (lines : list str) : result float :=
  let keyword := if is_GIF then lit "frame=" else lit "Duration: " in
  let hits := filter (contains keyword) lines in
  line <- (if is_GIF then index_last hits else index_first hits) ;;
  match re_findall re_timestamp line with
  | m0 :: _ => convert_to_seconds m0
  | [] => Ok 0
  end.

Definition get_alt_fps_n_frames (filename : str) : result (float * Z) :=
  let cmd := [lit "ffprobe"; lit "-show_entries"; lit "stream=r_frame_rate,nb_read_frames";
              lit "-select_streams"; lit "v"; lit "-count_frames";
              lit "-of"; lit "compact=p=0:nk=1"; lit "-v"; lit "0"; filename] in
  out <- call_command cmd (lit "stdout") ;;
  m <- the_match (match_at re_rate_count 0 out) ;;
  num <- int_of_str (group m 1) ;;
  den <- int_of_str (group m 2) ;;
  fps <- fdiv (of_int num) (of_int den) ;;
  n_frames <- int_of_str (group m 3) ;;
  Ok (fps, n_frames).

(** Arithmetic on a field that may still hold [None]. *)
Definition number (v : option float) : result float :=
  match v with
  | Some x => Ok x
  | None => Raise TypeError
  end.

Definition ffmpeg_parse_infos (filename : str) (print_infos check_duration : bool)
  (fps_source : str) (decode_file : bool) : result VideoMetaData :=
  if negb check_duration then Raise AssertionError else
  raw_metadata <- get_raw_metadata filename ;;
  let lines := splitlines raw_metadata in
  let meta := VideoMetaData_default in
  d <- parse_duration (endswith filename (lit ".gif")) lines ;;
  let meta := set_duration meta d in
  let lines_video := filter is_video_line lines in
  let meta := set_video_found meta (match lines_video with [] => false | _ => true end) in
  meta <- (if video_found meta then
             meta <- (if negb (truthy d) then
                        fn <- get_alt_fps_n_frames filename ;;
                        let (fps, n_frames) := (fn : float * Z) in
                        vd <- fdiv (of_int n_frames) fps ;;
                        let meta := set_video_duration meta vd in
                        let meta := set_video_fps meta fps in
                        let meta := set_video_n_frames meta n_frames in
                        Ok (set_duration meta vd)
                      else
                        line0 <- index_first lines_video ;;
                        r <- parse_video_fps line0 fps_source ;;
                        let meta := set_video_fps meta r in
                        let meta := set_video_n_frames meta (int_of_float (fmul d r) + 1) in
                        Ok (set_video_duration meta d)) ;;
             line0 <- index_first lines_video ;;
             sz <- parse_video_size line0 ;;
             let meta := set_video_size meta sz in
             fps <- number (video_fps meta) ;;
             fps' <- adjust_fps fps ;;
             let meta := set_video_fps meta fps' in
             rot <- parse_rotation lines ;;
             Ok (set_video_rotation meta rot)
           else Ok meta) ;;
  Ok (set_audio meta (parse_audio_infos lines)).

End External.

(** ** [moviepy/video/ImageClip.py] *)

(** A numpy array: its shape and its elements in row-major order. *)
Record ndarray : Type := MkArray {
  shape : list nat;
  data : list float
}.

Definition ndim (a : ndarray) : nat := length (shape a).

(** [a.shape[i]] *)
Definition dim (a : ndarray) (i : nat) : nat := nth i (shape a) 0%nat.

(** [a[i, j, k]] for a 3-dimensional array and [a[i, j]] for a 2-dimensional
    one. *)
Definition at3 (a : ndarray) (i j k : nat) : float :=
  nth ((i * dim a 1 + j) * dim a 2 + k) (data a) 0.

Definition at2 (a : ndarray) (i j : nat) : float :=
  nth (i * dim a 1 + j) (data a) 0.

(** The values of [a[:, :, k]] for a 3-dimensional array with more than [k]
    channels. *)
Definition channel (a : ndarray) (k : nat) : ndarray :=
  MkArray [dim a 0; dim a 1]
    (map (fun p => nth (p * dim a 2 + k) (data a) 0) (seq 0 (dim a 0 * dim a 1))).

(** [a[:, :, k]] for a 3-dimensional array. *)
Definition index_channel (a : ndarray) (k : nat) : result ndarray :=
  if (k <? dim a 2)%nat then Ok (channel a k) else Raise IndexError.

(** [a[:, :, :n]] for a 3-dimensional array. *)
Definition channels_upto (a : ndarray) (n : nat) : ndarray :=
  let c := Nat.min n (dim a 2) in
  MkArray [dim a 0; dim a 1; c]
    (map (fun q => nth ((q / c) * dim a 2 + q mod c) (data a) 0)
         (seq 0 (dim a 0 * dim a 1 * c))).

(** [1.0 * a / 255], elementwise. *)
Definition normalized (a : ndarray) : ndarray :=
  MkArray (shape a) (map (fun v => Qred (1 * v / 255)) (data a)).

(** A decoded picture of the imaging library: rows of pixels, each pixel a
    list of band values, and the EXIF table of the file. *)
Record Image : Type := MkImage {
  im_rows : list (list (list float));
  im_exif : list (Z * Z)
}.

(** [exif.get(key, None)] *)
Fixpoint exif_get (exif : list (Z * Z)) (key : Z) : option Z :=
  match exif with
  | [] => None
  | (k, v) :: rest => if Z.eqb k key then Some v else exif_get rest key
  end.

(** [values.index(name)]: position of the first occurrence. *)
Fixpoint index_of (name : str) (values : list str) : result nat :=
  match values with
  | [] => Raise ValueError
  | v :: rest =>
      if str_eqb v name then Ok 0%nat
      else i <- index_of name rest ;; Ok (S i)
  end.

Section Imaging.

(** [PIL.ExifTags.TAGS], as the list of its items. *)
Variable TAGS : list (Z * str).

(** [Image.rotate(angle, expand=...)] of the imaging library. *)
Variable Image_rotate : Image -> Z -> bool -> Image.

Definition rotate (im : Image) : Image :=
  let exif := im_exif im in
  match exif with
  | [] => im
  | _ =>
      match (i <- index_of (lit "Orientation") (map snd TAGS) ;;
             index_nth (map fst TAGS) i) with
      | Raise _ => im
      | Ok orientation_key =>
          let key := exif_get exif orientation_key in
          match key with
          | Some 3%Z => Image_rotate im 180 true
          | Some 6%Z => Image_rotate im 270 true
          | Some 8%Z => Image_rotate im 90 true
          | _ => im
          end
      end
  end.

End Imaging.

(** The name of a sub-clip attribute in an [apply_to] list. *)
Inductive attr : Type :=
| AttrMask
| AttrAudio.

Section Clips.

(** The audio clips of [moviepy.audio]. *)
Variable AudioClip : Type.

(** A video clip object, with the attributes that [VideoClip.__init__] and
    [ImageClip.__init__] set.  [mask] and [audio] are [None] or an attached
    clip. *)
#[warnings="-register-all"]
Inductive Clip : Type :=
| MkClip (make_frame : float -> ndarray)
         (img : ndarray)
         (size : list nat)
         (is_mask : bool)
         (duration : option float)
         (mask : option Clip)
         (audio : option AudioClip).

Definition clip_make_frame (c : Clip) : float -> ndarray :=
  match c with MkClip x _ _ _ _ _ _ => x end.
Definition clip_img (c : Clip) : ndarray :=
  match c with MkClip _ x _ _ _ _ _ => x end.
Definition clip_size (c : Clip) : list nat :=
  match c with MkClip _ _ x _ _ _ _ => x end.
Definition clip_is_mask (c : Clip) : bool :=
  match c with MkClip _ _ _ x _ _ _ => x end.
Definition clip_duration (c : Clip) : option float :=
  match c with MkClip _ _ _ _ x _ _ => x end.
Definition clip_mask (c : Clip) : option Clip :=
  match c with MkClip _ _ _ _ _ x _ => x end.
Definition clip_audio (c : Clip) : option AudioClip :=
  match c with MkClip _ _ _ _ _ _ x => x end.

Definition set_mask (c : Clip) (m : Clip) : Clip :=
  MkClip (clip_make_frame c) (clip_img c) (clip_size c) (clip_is_mask c)
    (clip_duration c) (Some m) (clip_audio c).

Definition set_audio_clip (c : Clip) (a : AudioClip) : Clip :=
  MkClip (clip_make_frame c) (clip_img c) (clip_size c) (clip_is_mask c)
    (clip_duration c) (clip_mask c) (Some a).

(** [clip.get_frame(t)] *)
Definition get_frame (c : Clip) (t : float) : ndarray := clip_make_frame c t.

(** [imageio.imread]: the array decoded from a file. *)
Variable imread : str -> result ndarray.

(** [ImageClip.__init__].  [depth] bounds the nesting of constructor calls:
    the constructor calls itself once, for the mask, on a 2-dimensional
    array.  [VideoClip.__init__] stores [is_mask] and [duration] and sets
    [mask] and [audio] to [None]. *)
Fixpoint ImageClip_init_depth (depth : nat) (img : str + ndarray)
  (is_mask transparent fromalpha : bool) (duration : option float) : result Clip :=
  match depth with
  | O => Raise RecursionError
  | S depth' =>
      img <- (match img with
              | inl path => imread path
              | inr a => Ok a
              end) ;;
      r <- (if Nat.eqb (ndim img) 3 then
              if Nat.eqb (dim img 2) 4 then
                if fromalpha then
                  a <- index_channel img 3 ;; Ok (None, normalized a)
                else if is_mask then
                  a <- index_channel img 0 ;; Ok (None, normalized a)
                else if transparent then
                  a <- index_channel img 3 ;;
                  m <- ImageClip_init_depth depth' (inr (normalized a))
                         true true false None ;;
                  Ok (Some m, channels_upto img 3)
                else Ok (None, img)
              else if is_mask then
                a <- index_channel img 0 ;; Ok (None, normalized a)
              else Ok (None, img)
            else Ok (None, img)) ;;
      let (mask, img) := (r : option Clip * ndarray) in
      Ok (MkClip (fun _ => img) img (rev (firstn 2 (shape img)))
                 is_mask duration mask None)
  end.

Definition ImageClip_init (img : str + ndarray)
  (is_mask transparent fromalpha : bool) (duration : option float) : result Clip :=
  ImageClip_init_depth 2 img is_mask transparent fromalpha duration.

(** [a.time_transform(time_func)] on an attached mask and on an attached
    audio clip: the method of the attached object, looked up when called. *)
Variable mask_time_transform : Clip -> (float -> float) -> Clip.
Variable audio_time_transform : AudioClip -> (float -> float) -> AudioClip.

(** One turn of the loop [for attr in apply_to] on the clip being built. *)
Definition time_transform_attr (time_func : float -> float) (self : Clip) (a : attr)
  : Clip :=
  match a with
  | AttrMask =>
      match clip_mask self with
      | Some m => set_mask self (mask_time_transform m time_func)
      | None => self
      end
  | AttrAudio =>
      match clip_audio self with
      | Some au => set_audio_clip self (audio_time_transform au time_func)
      | None => self
      end
  end.

(** [ImageClip.time_transform].  The decorator [outplace] runs the body on a
    copy of the clip and returns the copy. *)
Definition ImageClip_time_transform (self : Clip) (time_func : float -> float)
  (apply_to : option (list attr)) (keep_duration : bool) : Clip :=
  let apply_to :=
    match apply_to with
    | None => [AttrMask; AttrAudio]
    | Some l => l
    end in
  fold_left (time_transform_attr time_func) apply_to self.

End Clips.

Arguments MkClip {AudioClip}.
Arguments clip_make_frame {AudioClip}.
Arguments clip_img {AudioClip}.
Arguments clip_size {AudioClip}.
Arguments clip_is_mask {AudioClip}.
Arguments clip_duration {AudioClip}.
Arguments clip_mask {AudioClip}.
Arguments clip_audio {AudioClip}.
Arguments get_frame {AudioClip}.

(** ** Specification-level notions *)

(** The decimal value of a run of digits. *)
Definition digits_value (d : str) : Z :=
  fold_left (fun acc c => (10 * acc + digit_val c)%Z) d 0%Z.

(** [lang r t rest]: the regular expression [r] matches the text [t] when
    [rest] is what follows it in the subject string. *)
Fixpoint lang (r : regex) (t rest : str) : Prop :=
  match r with
  | Chr c => t = [c]
  | Dot => exists x, t = [x] /\ x <> LF
  | Cls p => exists x, t = [x] /\ p x = true
  | Star p => forallb p t = true
  | Opt c => t = [] \/ t = [c]
  | Alt r1 r2 => lang r1 t rest \/ lang r2 t rest
  | Cat r1 r2 =>
      exists t1 t2, t = t1 ++ t2 /\ lang r1 t1 (t2 ++ rest) /\ lang r2 t2 rest
  | Grp r1 => lang r1 t rest
  | Eol => t = [] /\ (rest = [] \/ rest = [LF])
  end.

(** No match of [r] starts at any of the first [n] positions of [s]. *)
Fixpoint no_match_before (r : regex) (s : str) (n : nat) {struct n} : bool :=
  match n with
  | O => true
  | S n' =>
      match match_at r 0 s with
      | None => match s with
                | [] => true
                | _ :: s' => no_match_before r s' n'
                end
      | Some _ => false
      end
  end.

(** The match object [m] moved [pos] characters to the right. *)
Definition shift_match (pos : nat) (m : rmatch) : rmatch :=
  MkMatch (pos + m_start m) (pos + m_end m) (m_groups m).

(** The string is empty or starts with a character outside the class [p]. *)
Definition stops (p : ascii -> bool) (s : str) : bool :=
  match s with
  | [] => true
  | c :: _ => negb (p c)
  end.


(** A rate token that the resolution policy does not use: missing or
    unparsable, zero, or above 1000. *)
Definition unusable_rate (r : result float) : Prop :=
  match r with
  | Ok v => v == 0 \/ 1000 < v
  | Raise _ => True
  end.

(** The fields of the record that describe the video stream hold the
    defaults of the dataclass. *)
Definition video_fields_default (m : VideoMetaData) : Prop :=
  video_fps m = None /\ video_n_frames m = None /\ video_duration m = None /\
  video_rotation m = 0%Z /\ video_size m = None.

(** The keyword that marks the line holding the duration. *)
Definition duration_keyword (is_GIF : bool) : str :=
  if is_GIF then lit "frame=" else lit "Duration: ".

(** ** Sample inputs *)

Definition sample_video_line : str :=
  lit "    Stream #0:0(und): Video: h264 (High) (avc1 / 0x31637661), yuv420p, 1280x720 [SAR 1:1 DAR 16:9], 1205 kb/s, 23.98 fps, 23.98 tbr, 24k tbn, 47.95 tbc (default)".




Definition sample_duration_line : str :=
  lit "  Duration: 00:16:40.50, start: 0.000000, bitrate: 1337 kb/s".

(** A video line whose [tbr] token reads zero. *)
Definition zero_tbr_line : str :=
  lit "    Stream #0:0: Video: h264, yuv420p, 640x480, 25 fps, 0 tbr, 12800 tbn".




Definition join_lines (ls : list str) : str :=
  List.concat (map (fun l => l ++ [LF]) ls).

(** The diagnostic text printed for a file with one video stream and no
    audio stream. *)
Definition video_only_output : str :=
  join_lines [lit "Input #0, mov,mp4,m4a,3gp,3g2,mj2, from 'clip.mp4':";
              sample_duration_line;
              sample_video_line;
              lit "At least one output file must be specified"].

(** The diagnostic text printed for a file that is not recognised as media:
    no line holds a duration. *)
Definition no_duration_output : str :=
  join_lines [lit "ffmpeg version 4.4.2 Copyright (c) 2000-2021 the FFmpeg developers";
              lit "clip.mp4: Invalid data found when processing input"].

Definition sample_popen (stderr_text : str) (cmd : list str) : str * str :=
  ([], stderr_text).

(** Modelled from the spec: [moviepy.tools.convert_to_seconds] is not part of
    the sources.  A timestamp [HH:MM:SS.ff] is converted to seconds
    ([00:01:23.45] is 83.45 seconds). *)
Definition convert_to_seconds_spec (time : str) : result float :=
  match split_chr ":" time with
  | [hh; mm; ss] =>
      h <- float_of_str hh ;;
      m <- float_of_str mm ;;
      s <- float_of_str ss ;;
      Ok (Qred (3600 * h + 60 * m + s))
  | _ => Raise ValueError
  end.

(** Rotation of a pixel grid by a multiple of a quarter turn, counter-clockwise,
    with expansion: the behaviour of the imaging library's [rotate] for the
    angles 90, 180 and 270. *)
Fixpoint transpose_rows {A : Type} (width : nat) (rows : list (list A)) : list (list A) :=
  match rows with
  | [] => repeat [] width
  | r :: rows' => map (fun p => fst p :: snd p) (combine r (transpose_rows width rows'))
  end.

Definition grid_width {A : Type} (rows : list (list A)) : nat :=
  match rows with
  | [] => 0%nat
  | r :: _ => length r
  end.

Definition grid_rotate (im : Image) (angle : Z) (expand : bool) : Image :=
  let rows := im_rows im in
  let t := transpose_rows (grid_width rows) rows in
  if Z.eqb angle 90 then MkImage (rev t) (im_exif im)
  else if Z.eqb angle 180 then MkImage (rev (map (@rev _) rows)) (im_exif im)
  else if Z.eqb angle 270 then MkImage (map (@rev _) t) (im_exif im)
  else im.

(** [numpy.asarray(im)] for a decoded picture. *)
Definition asarray (im : Image) : ndarray :=
  let rows := im_rows im in
  MkArray [length rows; grid_width rows;
           match rows with (px :: _) :: _ => length px | _ => 0%nat end]
          (List.concat (List.concat rows)).

Definition exif_tags : list (Z * str) :=
  [(271%Z, lit "Make"); (272%Z, lit "Model"); (274%Z, lit "Orientation")].

(** A picture of one row of two pixels with an alpha channel. *)
Definition rgba_sample : ndarray :=
  MkArray [1; 2; 4]%nat [255; 0; 0; 255; 0; 0; 255; 51].

(** A time function and the remapping of a generic clip by composition. *)
Definition double_speed (t : float) : float := fmul 2 t.

Definition remap_frames (c : Clip unit) (time_func : float -> float) : Clip unit :=
  MkClip (fun t => clip_make_frame c (time_func t)) (clip_img c) (clip_size c)
    (clip_is_mask c) (clip_duration c) (clip_mask c) (clip_audio c).

Definition no_file (path : str) : result ndarray :=
  Raise (IOError (lit "No such file: " ++ path)).

(** A picture of two pixels side by side, stored upside down. *)
Definition upside_down_picture : Image :=
  MkImage [[[10; 10; 10]; [200; 200; 200]]] [(274%Z, 3%Z)].

(** ** [ImageClip.image_transform] and [ColorClip] *)

Section Transforms.

Variable AudioClip : Type.

(** [imageio.imread], which [ImageClip.__init__] needs for a path. *)
Variable imread : str -> result ndarray.

(** [a.image_transform(image_func)] on an attached mask and on an attached
    audio clip: the method of the attached object, looked up when called. *)
Variable mask_image_transform :
  Clip AudioClip -> (ndarray -> result ndarray) -> result (Clip AudioClip).
Variable audio_image_transform :
  AudioClip -> (ndarray -> result ndarray) -> result AudioClip.

(** One turn of the loop [for attr in apply_to] of [image_transform]. *)
Definition image_transform_attr (image_func : ndarray -> result ndarray)
  (self : Clip AudioClip) (a : attr) : result (Clip AudioClip) :=
  match a with
  | AttrMask =>
      match clip_mask self with
      | Some m =>
          new_a <- mask_image_transform m image_func ;;
          Ok (set_mask AudioClip self new_a)
      | None => Ok self
      end
  | AttrAudio =>
      match clip_audio self with
      | Some au =>
          new_a <- audio_image_transform au image_func ;;
          Ok (set_audio_clip AudioClip self new_a)
      | None => Ok self
      end
  end.

Fixpoint image_transform_loop (image_func : ndarray -> result ndarray)
  (self : Clip AudioClip) (apply_to : list attr) : result (Clip AudioClip) :=
  match apply_to with
  | [] => Ok self
  | a :: rest =>
      self' <- image_transform_attr image_func self a ;;
      image_transform_loop image_func self' rest
  end.

(** [ImageClip.image_transform].  The decorator [outplace] runs the body on
    a copy of the clip and returns the copy. *)
Definition ImageClip_image_transform (self : Clip AudioClip)
  (image_func : ndarray -> result ndarray) (apply_to : option (list attr))
  : result (Clip AudioClip) :=
  let apply_to :=
    match apply_to with
    | None => []
    | Some l => l
    end in
  arr <- image_func (get_frame self 0) ;;
  let self :=
    MkClip (fun _ => arr) arr (rev (firstn 2 (shape arr)))
      (clip_is_mask self) (clip_duration self) (clip_mask self) (clip_audio self) in
  image_transform_loop image_func self apply_to.

(** An exception of the base class [Exception], with its message, or one of
    the built-in classes of [exn]. *)
Inductive exception : Type :=
| Exception (msg : str)
| Builtin (e : exn).

Inductive outcome (A : Type) : Type :=
| Return (a : A)
| Throw (e : exception).

Arguments Return {A} a.
Arguments Throw {A} e.

(** The [color] argument of [ColorClip]: a number or a sequence of numbers. *)
Inductive color_arg : Type :=
| ColorScalar (v : float)
| ColorSeq (cs : list float).

(** [np.tile(color, n)] for a number and for a sequence of numbers. *)
Definition tile (color : color_arg) (n : nat) : list float :=
  match color with
  | ColorScalar v => repeat v n
  | ColorSeq cs => List.concat (repeat cs n)
  end.

(** [ColorClip.__init__], for a size of two non-negative integers. *)
Definition ColorClip_init (size : nat * nat) (color : option color_arg)
  (is_mask : bool) (duration : option float) : outcome (Clip AudioClip) :=
  let (w, h) := size in
  let checked :=
    if is_mask then
      match color with
      | None => Return ([h; w], ColorScalar 0)
      | Some (ColorScalar v) => Return ([h; w], ColorScalar v)
      | Some (ColorSeq _) =>
          Throw (Exception (lit "Color has to be a scalar when mask is true"))
      end
    else
      match color with
      | None => Return ([h; w; 3%nat], ColorSeq [0; 0; 0])
      | Some (ColorSeq cs) => Return ([h; w; length cs], ColorSeq cs)
      | Some (ColorScalar _) =>
          Throw (Exception (lit "Color has to contain RGB of the clip"))
      end in
  match checked with
  | Throw e => Throw e
  | Return (shape, color) =>
      match ImageClip_init AudioClip imread
              (inr (MkArray shape (tile color (w * h)))) is_mask true false duration with
      | Ok clip => Return clip
      | Raise e => Throw (Builtin e)
      end
  end.

End Transforms.

Arguments Return {A} a.
Arguments Throw {A} e.

(** The command line of [get_raw_metadata] and that of
    [get_alt_fps_n_frames]. *)
Definition info_command (FFMPEG_BINARY filename : str) : list str :=
  [FFMPEG_BINARY; lit "-i"; filename] ++
  (if endswith filename (lit ".gif") then [lit "-f"; lit "null"; lit "/dev/null"] else []).


(** A diagnostic text in which an earlier line, not the last one, holds the
    words of the missing-file message. *)
Definition early_signature_output : str :=
  join_lines [lit "/tmp/No such file or directory.mp4: some notice";
              sample_duration_line;
              lit "At least one output file must be specified"].

(** A text of the form [HH:MM:SS.ff], with any character but a newline in
    the place of the point. *)
Definition is_timestamp (ts : str) : bool :=
  match ts with
  | [a; b; c1; c; d; c2; e; f; x; g; h] =>
      is_digit a && is_digit b && Ascii.eqb c1 ":" &&
      is_digit c && is_digit d && Ascii.eqb c2 ":" &&
      is_digit e && is_digit f && negb (Ascii.eqb x LF) &&
      is_digit g && is_digit h
  | _ => false
  end.

(** ** More sample inputs *)

(** The diagnostic text printed for a path that does not exist. *)
Definition not_found_output : str :=
  join_lines [lit "ffmpeg version 4.4.2 Copyright (c) 2000-2021 the FFmpeg developers";
              lit "missing.mp4: No such file or directory"].





Definition gif_progress_early : str :=
  lit "frame=   10 fps=0.0 q=-0.0 size=N/A time=00:00:00.40 bitrate=N/A speed=  20x".

Definition gif_progress_final : str :=
  lit "frame=   25 fps=0.0 q=-0.0 Lsize=N/A time=00:00:01.00 bitrate=N/A speed=  25x".

Definition short_duration_line : str :=
  lit "  Duration: 00:00:05.00, start: 0.000000, bitrate: 64 kb/s".

(** A video line whose two rate tokens disagree. *)
Definition mixed_rate_line : str :=
  lit "    Stream #0:0: Video: h264, yuv420p, 640x480, 15 fps, 30 tbr, 90k tbn".

(** The image of the clip that a constructor call returns. *)
Definition clip_img_of {AudioClip : Type} (r : result (Clip AudioClip)) : option ndarray :=
  match r with
  | Ok c => Some (clip_img c)
  | Raise _ => None
  end.

(** A picture of two rows of three pixels with one band. *)
Definition gray_sample : ndarray :=
  MkArray [2; 3]%nat [0; 51; 102; 153; 204; 255].

(** An image function: the picture with every value halved. *)
Definition halve (a : ndarray) : result ndarray :=
  Ok (MkArray (shape a) (map (fun v => Qred (v / 2)) (data a))).

(** An image function: the first row of the picture. *)
Definition first_row (a : ndarray) : result ndarray :=
  Ok (MkArray (1%nat :: tl (shape a)) (firstn (fold_right Nat.mul 1%nat (tl (shape a))) (data a))).

(** * Properties *)

Example split_example :
  split_chr " " (lit " 23.98 tbr") = [[]; lit "23.98"; lit "tbr"].
Proof. reflexivity. Qed.

Example float_example : float_of_str (lit "23.98") = Ok (1199 # 50).
Proof. vm_compute. reflexivity. Qed.

(** ** The exception monad *)

Lemma bind_ret {A B : Type} (a : A) (f : A -> result B) : bind (Ok a) f = f a.
Proof. reflexivity. Qed.

Lemma bind_raise {A B : Type} (e : exn) (f : A -> result B) :
  bind (Raise e) f = Raise e.
Proof. reflexivity. Qed.

Lemma bind_Ok {A B : Type} (m : result A) (f : A -> result B) (b : B) :
  bind m f = Ok b -> exists a, m = Ok a /\ f a = Ok b.
Proof.
  destruct m as [a|e]; simpl; intros H.
  - exists a. split; [reflexivity | exact H].
  - discriminate H.
Qed.

Ltac bind_inv H :=
  let a := fresh "v" in
  let Ha := fresh "Hv" in
  apply bind_Ok in H; destruct H as (a & Ha & H).

Lemma filter_none {A : Type} (p : A -> bool) (l : list A) :
  forallb (fun x => negb (p x)) l = true -> filter p l = [].
Proof.
  induction l as [|x l IH]; simpl; intros H.
  - reflexivity.
  - apply andb_prop in H. destruct H as [Hx Hl].
    destruct (p x); [discriminate Hx | exact (IH Hl)].
Qed.

(** ** The duration line *)

Lemma parse_duration_no_line convert is_GIF lines :
  forallb (fun l => negb (contains (duration_keyword is_GIF) l)) lines = true ->
  parse_duration convert is_GIF lines = Raise IndexError.
Proof.
  intros H. unfold parse_duration.
  fold (duration_keyword is_GIF).
  rewrite (filter_none _ _ H).
  destruct is_GIF; reflexivity.
Qed.

(** C2: when no line of the diagnostic text contains the duration keyword
    (['Duration: '], or ['frame='] for a GIF), [parse_duration] does not
    return zero: indexing the empty list of candidate lines raises
    [IndexError], and the exception leaves [ffmpeg_parse_infos]. *)
Theorem parse_duration_without_keyword :
  forall popen FFMPEG_BINARY convert filename print_infos fps_source decode_file raw,
    get_raw_metadata popen FFMPEG_BINARY filename = Ok raw ->
    forallb (fun l => negb (contains (duration_keyword (endswith filename (lit ".gif"))) l))
            (splitlines raw) = true ->
    parse_duration convert (endswith filename (lit ".gif")) (splitlines raw)
      = Raise IndexError /\
    ffmpeg_parse_infos popen FFMPEG_BINARY convert filename print_infos true
      fps_source decode_file = Raise IndexError.
Proof.
  intros popen ff convert filename pi src df raw Hraw Hno.
  pose proof (parse_duration_no_line convert _ _ Hno) as Hd.
  split; [exact Hd|].
  unfold ffmpeg_parse_infos. simpl negb. cbv iota.
  rewrite Hraw, bind_ret. cbv beta. rewrite Hd. reflexivity.
Qed.

Lemma parse_duration_without_keyword_witness :
  get_raw_metadata (sample_popen no_duration_output) (lit "ffmpeg") (lit "clip.mp4")
    = Ok no_duration_output /\
  ffmpeg_parse_infos (sample_popen no_duration_output) (lit "ffmpeg")
    convert_to_seconds_spec (lit "clip.mp4") false true (lit "tbr") true
    = Raise IndexError.
Proof.
  split; [vm_compute; reflexivity|].
  apply (parse_duration_without_keyword (sample_popen no_duration_output) (lit "ffmpeg")
           convert_to_seconds_spec (lit "clip.mp4") false (lit "tbr") true
           no_duration_output); vm_compute; reflexivity.
Defined.

(** ** The metadata record *)

Lemma parse_audio_infos_rate lines :
  snd (parse_audio_infos lines) <> StrUnknown /\
  (fst (parse_audio_infos lines) = false -> snd (parse_audio_infos lines) = PyNone).
Proof.
  unfold parse_audio_infos.
  destruct (filter (contains (lit " Audio: ")) lines) as [|line rest]; simpl.
  - split; [discriminate | reflexivity].
  - split; [|discriminate].
    destruct (bind _ _); discriminate.
Qed.

Lemma parse_audio_infos_found lines :
  fst (parse_audio_infos lines) = existsb (contains (lit " Audio: ")) lines.
Proof.
  unfold parse_audio_infos.
  generalize (contains (lit " Audio: ")). intros p. cbn [fst].
  induction lines as [|l lines IH]; simpl; [reflexivity|].
  destruct (p l); simpl; [reflexivity | exact IH].
Qed.

Lemma video_fields_when_not_found :
  forall popen FFMPEG_BINARY convert filename print_infos check_duration
         fps_source decode_file meta,
    ffmpeg_parse_infos popen FFMPEG_BINARY convert filename print_infos check_duration
      fps_source decode_file = Ok meta ->
    video_found meta = false ->
    video_fields_default meta.
Proof.
  intros popen ff convert filename pi cd src df meta H Hnf.
  unfold ffmpeg_parse_infos in H.
  destruct cd; simpl negb in H; cbv iota in H; [|discriminate H].
  bind_inv H. bind_inv H. bind_inv H.
  injection H as <-.
  simpl in Hnf.
  destruct (filter is_video_line (splitlines v)) as [|line0 rest] eqn:Hlines.
  - simpl in Hv1. injection Hv1 as <-. repeat split.
  - exfalso. simpl in Hv1.
    bind_inv Hv1. rename v2 into meta0, Hv2 into Hmeta0.
    repeat bind_inv Hv1.
    injection Hv1 as <-.
    assert (Hfound : video_found meta0 = true).
    { destruct (negb (truthy v0)).
      - apply bind_Ok in Hmeta0. destruct Hmeta0 as ([fps n] & _ & Hmeta0).
        bind_inv Hmeta0. injection Hmeta0 as <-. reflexivity.
      - repeat bind_inv Hmeta0. injection Hmeta0 as <-. reflexivity. }
    simpl in Hnf. rewrite Hfound in Hnf. discriminate Hnf.
Qed.

(** C4: the field [audio_fps] of a returned record never holds the sentinel
    ['unknown'] declared as its default.  [parse_audio_infos] overwrites it:
    with [None] when no audio line is found or when the audio line has no
    readable ['<number> Hz'] token, and with the sample rate otherwise. *)
Theorem audio_fps_never_unknown :
  forall popen FFMPEG_BINARY convert filename print_infos check_duration
         fps_source decode_file meta,
    ffmpeg_parse_infos popen FFMPEG_BINARY convert filename print_infos check_duration
      fps_source decode_file = Ok meta ->
    audio_fps meta <> StrUnknown /\
    (audio_found meta = false -> audio_fps meta = PyNone).
Proof.
  intros popen ff convert filename pi cd src df meta H.
  unfold ffmpeg_parse_infos in H.
  destruct cd; simpl negb in H; cbv iota in H; [|discriminate H].
  bind_inv H. bind_inv H. bind_inv H.
  injection H as <-.
  simpl. apply parse_audio_infos_rate.
Qed.

Lemma audio_fps_never_unknown_witness :
  exists meta,
    ffmpeg_parse_infos (sample_popen video_only_output) (lit "ffmpeg")
      convert_to_seconds_spec (lit "clip.mp4") false true (lit "tbr") true = Ok meta /\
    audio_found meta = false /\
    audio_fps meta = PyNone /\
    audio_fps meta <> StrUnknown.
Proof.
  destruct (ffmpeg_parse_infos (sample_popen video_only_output) (lit "ffmpeg")
              convert_to_seconds_spec (lit "clip.mp4") false true (lit "tbr") true)
    as [meta|e] eqn:E; [|vm_compute in E; discriminate E].
  exists meta.
  pose proof (audio_fps_never_unknown _ _ _ _ _ _ _ _ _ E) as [Hne Hnone].
  assert (Hf : audio_found meta = false).
  { vm_compute in E. injection E as <-. reflexivity. }
  split; [reflexivity|]. split; [exact Hf|]. split; [exact (Hnone Hf) | exact Hne].
Defined.

(** ** Arrays *)

Lemma nth_map_seq {A : Type} (f : nat -> A) (n i : nat) (d : A) :
  (i < n)%nat -> nth i (map f (seq 0 n)) d = f i.
Proof.
  intros Hi.
  rewrite (nth_indep _ d (f 0%nat)) by (rewrite length_map, length_seq; exact Hi).
  rewrite (map_nth f (seq 0 n) 0%nat i).
  rewrite seq_nth by exact Hi. reflexivity.
Qed.

Lemma pixel_index_bound (h w i j : nat) :
  (i < h)%nat -> (j < w)%nat -> (i * w + j < h * w)%nat.
Proof. intros Hi Hj. nia. Qed.

Lemma channel_at (a : ndarray) (h w c k i j : nat) :
  shape a = [h; w; c] -> (i < h)%nat -> (j < w)%nat ->
  shape (channel a k) = [h; w] /\
  at2 (channel a k) i j = at3 a i j k.
Proof.
  intros Hs Hi Hj. unfold channel, at2, at3, dim. rewrite Hs. simpl.
  split; [reflexivity|].
  rewrite nth_map_seq by (apply pixel_index_bound; assumption).
  reflexivity.
Qed.

Lemma index_channel_ok (a : ndarray) (h w c k : nat) :
  shape a = [h; w; c] -> (k < c)%nat -> index_channel a k = Ok (channel a k).
Proof.
  intros Hs Hk. unfold index_channel, dim. rewrite Hs. cbn [nth].
  apply Nat.ltb_lt in Hk. rewrite Hk. reflexivity.
Qed.

Lemma normalized_at2 (a : ndarray) (h w i j : nat) :
  shape a = [h; w] -> (i < h)%nat -> (j < w)%nat -> length (data a) = (h * w)%nat ->
  at2 (normalized a) i j = Qred (1 * at2 a i j / 255).
Proof.
  intros Hs Hi Hj Hlen. unfold normalized, at2, dim. cbn [shape data]. rewrite Hs.
  cbn [nth].
  rewrite (nth_indep _ 0 ((fun v : float => Qred (1 * v / 255)) 0)).
  - apply (map_nth (fun v : float => Qred (1 * v / 255))).
  - rewrite length_map. unfold float in *. rewrite Hlen.
    apply pixel_index_bound; assumption.
Qed.

Lemma channels_upto_at (a : ndarray) (h w c n i j k : nat) :
  shape a = [h; w; c] -> (n <= c)%nat -> (i < h)%nat -> (j < w)%nat -> (k < n)%nat ->
  shape (channels_upto a n) = [h; w; n] /\
  at3 (channels_upto a n) i j k = at3 a i j k.
Proof.
  intros Hs Hn Hi Hj Hk. unfold channels_upto, at3, dim. rewrite Hs. simpl.
  rewrite Nat.min_l by exact Hn.
  split; [reflexivity|].
  rewrite nth_map_seq.
  - rewrite Nat.div_add_l by lia. rewrite Nat.div_small by exact Hk.
    rewrite Nat.add_0_r.
    replace ((i * w + j) * n + k)%nat with (k + (i * w + j) * n)%nat by lia.
    rewrite Nat.Div0.mod_add. rewrite Nat.mod_small by exact Hk.
    f_equal; lia.
  - pose proof (pixel_index_bound h w i j Hi Hj). nia.
Qed.

(** ** Still-image clips *)

Section ClipFacts.

Variable AudioClip : Type.
Variable imread : str -> result ndarray.
Variable mask_time_transform : Clip AudioClip -> (float -> float) -> Clip AudioClip.
Variable audio_time_transform : AudioClip -> (float -> float) -> AudioClip.

Let time_transform := ImageClip_time_transform AudioClip mask_time_transform audio_time_transform.
Let init := ImageClip_init AudioClip imread.

Lemma time_transform_attr_frame time_func (self : Clip AudioClip) a :
  let c := time_transform_attr AudioClip mask_time_transform audio_time_transform
             time_func self a in
  clip_make_frame c = clip_make_frame self /\
  clip_img c = clip_img self /\
  clip_size c = clip_size self /\
  clip_is_mask c = clip_is_mask self /\
  clip_duration c = clip_duration self.
Proof.
  destruct a; simpl.
  - destruct (clip_mask self); simpl; repeat split.
  - destruct (clip_audio self); simpl; repeat split.
Qed.

Lemma time_transform_frame (self : Clip AudioClip) time_func apply_to keep_duration :
  let c := time_transform self time_func apply_to keep_duration in
  clip_make_frame c = clip_make_frame self /\
  clip_img c = clip_img self /\
  clip_size c = clip_size self /\
  clip_is_mask c = clip_is_mask self /\
  clip_duration c = clip_duration self.
Proof.
  unfold time_transform, ImageClip_time_transform.
  generalize (match apply_to with Some l => l | None => [AttrMask; AttrAudio] end).
  intros l. revert self.
  induction l as [|a l IH]; intros self; simpl.
  - repeat split.
  - specialize (IH (time_transform_attr AudioClip mask_time_transform
                      audio_time_transform time_func self a)).
    pose proof (time_transform_attr_frame time_func self a) as Ha.
    simpl in IH, Ha.
    destruct IH as (I1 & I2 & I3 & I4 & I5). destruct Ha as (A1 & A2 & A3 & A4 & A5).
    repeat split; etransitivity; eassumption.
Qed.

Lemma ImageClip_init_frame arg is_mask transparent fromalpha duration clip :
  init arg is_mask transparent fromalpha duration = Ok clip ->
  forall t, get_frame clip t = clip_img clip.
Proof.
  unfold init, ImageClip_init. simpl. intros H t.
  bind_inv H. bind_inv H. destruct v0 as [mask img]. injection H as <-. reflexivity.
Qed.

(** C9: [time_transform] on an image clip, with the default [apply_to],
    leaves the frame function, the image and the size of the clip as they
    are, whatever the time function; a clip built by the constructor still
    returns its single image at every time.  The attached mask and the
    attached audio clip, when present, are replaced by the result of their
    own [time_transform] on the same time function. *)
Theorem time_transform_keeps_frame :
  forall (self : Clip AudioClip) (time_func : float -> float) (keep_duration : bool),
    let c := time_transform self time_func None keep_duration in
    clip_make_frame c = clip_make_frame self /\
    clip_img c = clip_img self /\
    clip_size c = clip_size self /\
    (forall t, get_frame c t = get_frame self t) /\
    clip_mask c = option_map (fun m => mask_time_transform m time_func) (clip_mask self) /\
    clip_audio c = option_map (fun a => audio_time_transform a time_func) (clip_audio self) /\
    clip_is_mask c = clip_is_mask self /\
    clip_duration c = clip_duration self /\
    (forall arg is_mask transparent fromalpha duration,
        init arg is_mask transparent fromalpha duration = Ok self ->
        forall t, get_frame c t = clip_img self).
Proof.
  intros self time_func keep_duration c.
  destruct (time_transform_frame self time_func None keep_duration)
    as (Hf & Hi & Hs & Hm & Hd).
  fold c in Hf, Hi, Hs, Hm, Hd.
  assert (Hget : forall t, get_frame c t = get_frame self t).
  { intros t. unfold get_frame. rewrite Hf. reflexivity. }
  repeat split; try assumption.
  - destruct self as [mf img sz ism dur [m|] [a|]]; reflexivity.
  - destruct self as [mf img sz ism dur [m|] [a|]]; reflexivity.
  - intros arg ism tr fa dur Hinit t. rewrite Hget.
    exact (ImageClip_init_frame _ _ _ _ _ _ Hinit t).
Qed.

(** C8: built from a 3-dimensional buffer with four channels and the default
    options ([is_mask=False], [transparent=True], [fromalpha=False]), the
    clip holds the first three channels of the input as its image, and its
    mask is a clip flagged [is_mask] whose 2-dimensional image is channel 3
    of the input divided by 255 at every pixel. *)
Theorem rgba_buffer_split :
  forall (img : ndarray) (h w : nat) (duration : option float),
    shape img = [h; w; 4%nat] ->
    exists clip m,
      init (inr img) false true false duration = Ok clip /\
      clip_img clip = channels_upto img 3 /\
      shape (clip_img clip) = [h; w; 3%nat] /\
      (forall i j k, (i < h)%nat -> (j < w)%nat -> (k < 3)%nat ->
                     at3 (clip_img clip) i j k = at3 img i j k) /\
      clip_mask clip = Some m /\
      clip_is_mask m = true /\
      shape (clip_img m) = [h; w] /\
      (forall i j, (i < h)%nat -> (j < w)%nat ->
                   at2 (clip_img m) i j = Qred (1 * at3 img i j 3 / 255) /\
                   at2 (clip_img m) i j == at3 img i j 3 / 255).
Proof.
  intros img h w duration Hs.
  unfold init, ImageClip_init, ImageClip_init_depth.
  rewrite !bind_ret.
  assert (Hnd : ndim img = 3%nat) by (unfold ndim; rewrite Hs; reflexivity).
  assert (Hd2 : dim img 2 = 4%nat) by (unfold dim; rewrite Hs; reflexivity).
  rewrite Hnd, Hd2. cbn [Nat.eqb].
  rewrite (index_channel_ok img h w 4 3 Hs) by lia. rewrite !bind_ret.
  change (ndim (normalized (channel img 3)) =? 3)%nat with false.
  cbv iota. rewrite !bind_ret.
  eexists. eexists. split; [reflexivity|].
  cbn [clip_img clip_mask clip_is_mask].
  assert (Hlen : length (data (channel img 3)) = (h * w)%nat).
  { unfold channel, dim. rewrite Hs. cbn [data nth]. rewrite length_map, length_seq.
    reflexivity. }
  split; [reflexivity|].
  split; [unfold channels_upto, dim; rewrite Hs; reflexivity|].
  split.
  { intros i j k Hi Hj Hk.
    apply (channels_upto_at img h w 4 3 i j k Hs); try assumption. lia. }
  split; [reflexivity|].
  split; [reflexivity|].
  split; [unfold normalized, channel, dim; rewrite Hs; reflexivity|].
  intros i j Hi Hj.
  destruct (channel_at img h w 4 3 i j Hs Hi Hj) as [Hcs Hca].
  cbn [clip_img]. rewrite (normalized_at2 _ h w i j Hcs Hi Hj Hlen), Hca.
  split; [reflexivity|].
  rewrite Qred_correct. field.
Qed.

(** The constructor calls itself at most once: two levels of calls are all
    that is ever used, and [RecursionError] is never raised. *)
Lemma ImageClip_init_depth_enough n arg is_mask transparent fromalpha duration :
  ImageClip_init_depth AudioClip imread (S (S n)) arg is_mask transparent fromalpha duration
  = init arg is_mask transparent fromalpha duration.
Proof.
  unfold init, ImageClip_init.
  cbn [ImageClip_init_depth].
  destruct (match arg with inl path => imread path | inr a => Ok a end) as [img|e];
    [|reflexivity].
  rewrite !bind_ret.
  destruct (ndim img =? 3)%nat; [|reflexivity].
  destruct (dim img 2 =? 4)%nat; [|reflexivity].
  destruct fromalpha; [reflexivity|].
  destruct is_mask; [reflexivity|].
  destruct transparent; [|reflexivity].
  unfold index_channel. destruct (3 <? dim img 2)%nat; [|reflexivity].
  rewrite !bind_ret.
  change (ndim (normalized (channel img 3)) =? 3)%nat with false.
  reflexivity.
Qed.

(** Read from a file, the picture is used as the decoder returns it. *)
Lemma ImageClip_init_path path is_mask transparent fromalpha duration :
  init (inl path) is_mask transparent fromalpha duration =
  (a <- imread path ;; init (inr a) is_mask transparent fromalpha duration).
Proof.
  unfold init, ImageClip_init. cbn [ImageClip_init_depth].
  destruct (imread path); reflexivity.
Qed.

End ClipFacts.

Lemma time_transform_keeps_frame_witness :
  exists self,
    ImageClip_init unit no_file (inr rgba_sample) false true false None = Ok self /\
    forall t,
      get_frame (ImageClip_time_transform unit remap_frames (fun a _ => a)
                   self double_speed None false) t = clip_img self.
Proof.
  eexists. split; [reflexivity|].
  apply (time_transform_keeps_frame unit no_file remap_frames (fun a _ => a)
           _ double_speed false) with (arg := inr rgba_sample) (is_mask := false)
           (transparent := true) (fromalpha := false) (duration := None).
  reflexivity.
Defined.

Lemma rgba_buffer_split_witness :
  shape rgba_sample = [1; 2; 4]%nat /\
  exists clip m,
    ImageClip_init unit no_file (inr rgba_sample) false true false None = Ok clip /\
    clip_mask clip = Some m /\
    clip_is_mask m = true /\
    data (clip_img clip) = [255; 0; 0; 0; 0; 255] /\
    at2 (clip_img m) 0 1 = 1 # 5.
Proof.
  split; [reflexivity|].
  destruct (rgba_buffer_split unit no_file rgba_sample 1 2 None eq_refl)
    as (clip & m & Hinit & Himg & _ & _ & Hmask & Hflag & _ & Hat).
  exists clip, m.
  split; [exact Hinit|]. split; [exact Hmask|]. split; [exact Hflag|].
  split.
  - rewrite Himg. reflexivity.
  - destruct (Hat 0%nat 1%nat) as [-> _]; [lia | lia | reflexivity].
Defined.

(** ** EXIF orientation *)

Lemma rotate_without_exif TAGS Image_rotate im :
  im_exif im = [] -> rotate TAGS Image_rotate im = im.
Proof. intros H. unfold rotate. rewrite H. reflexivity. Qed.

Lemma rotate_by_orientation Image_rotate im :
  im_exif im <> [] ->
  rotate exif_tags Image_rotate im =
  match exif_get (im_exif im) 274 with
  | Some 3%Z => Image_rotate im 180%Z true
  | Some 6%Z => Image_rotate im 270%Z true
  | Some 8%Z => Image_rotate im 90%Z true
  | _ => im
  end.
Proof.
  intros H. unfold rotate. destruct (im_exif im) as [|e l]; [contradiction|].
  reflexivity.
Qed.

(** C1: a clip built from a file path holds the array exactly as the image
    decoder returns it.  For a picture whose EXIF orientation is 3, [rotate]
    turns the picture by 180 degrees, but the constructor never calls
    [rotate], and the image of the clip is the unrotated picture. *)
Theorem ImageClip_from_path_not_rotated :
  let picture := upside_down_picture in
  let loader := fun _ : str => Ok (asarray picture) in
  exif_get (im_exif picture) 274 = Some 3%Z /\
  rotate exif_tags grid_rotate picture = grid_rotate picture 180 true /\
  data (asarray (rotate exif_tags grid_rotate picture)) = [200; 200; 200; 10; 10; 10] /\
  exists clip,
    ImageClip_init unit loader (inl (lit "photo.jpg")) false true false None = Ok clip /\
    clip_img clip = asarray picture /\
    data (clip_img clip) = [10; 10; 10; 200; 200; 200] /\
    clip_img clip <> asarray (rotate exif_tags grid_rotate picture).
Proof.
  cbv zeta.
  split; [reflexivity|]. split; [reflexivity|]. split; [reflexivity|].
  eexists. split; [reflexivity|].
  split; [reflexivity|]. split; [reflexivity|].
  cbn. intros H. discriminate H.
Qed.

(** ** The matcher *)

Lemma or_else_Some {A : Type} (a b : option A) (x : A) :
  or_else a b = Some x -> a = Some x \/ (a = None /\ b = Some x).
Proof.
  destruct a as [y|]; simpl; intros H.
  - left. exact H.
  - right. split; [reflexivity | exact H].
Qed.

Lemma star_sound {A : Type} (p : ascii -> bool) (s : str) (k : str -> option A) (a : A) :
  star p s k = Some a ->
  exists t s', s = t ++ s' /\ forallb p t = true /\ k s' = Some a.
Proof.
  induction s as [|c s IH]; simpl; intros H.
  - exists [], []. repeat split. exact H.
  - destruct (p c) eqn:Hc.
    + apply or_else_Some in H. destruct H as [H|[_ H]].
      * destruct (IH H) as (t & s' & -> & Ht & Hk).
        exists (c :: t), s'. simpl. rewrite Hc, Ht. repeat split. exact Hk.
      * exists [], (c :: s). repeat split. exact H.
    + exists [], (c :: s). repeat split. exact H.
Qed.

(** Soundness: a successful run has consumed a text of the language of the
    expression and continued on what follows. *)
Lemma run_sound {A : Type} (r : regex) :
  forall (s : str) (caps : list str) (k : str -> list str -> option A) (a : A),
    run r s caps k = Some a ->
    exists t s' caps', s = t ++ s' /\ lang r t s' /\ k s' caps' = Some a.
Proof.
  induction r as [c| |p|p|c|r1 IH1 r2 IH2|r1 IH1 r2 IH2|r1 IH1|];
    intros s caps k a H; simpl in H.
  - destruct s as [|x s]; [discriminate H|].
    destruct (Ascii.eqb x c) eqn:E; [|discriminate H].
    apply Ascii.eqb_eq in E. subst x.
    exists [c], s, caps. repeat split. exact H.
  - destruct s as [|x s]; [discriminate H|].
    destruct (Ascii.eqb x LF) eqn:E; [discriminate H|].
    apply Ascii.eqb_neq in E.
    exists [x], s, caps. split; [reflexivity|]. split; [|exact H].
    exists x. split; [reflexivity | exact E].
  - destruct s as [|x s]; [discriminate H|].
    destruct (p x) eqn:E; [|discriminate H].
    exists [x], s, caps. split; [reflexivity|]. split; [|exact H].
    exists x. split; [reflexivity | exact E].
  - apply star_sound in H. destruct H as (t & s' & -> & Ht & Hk).
    exists t, s', caps. repeat split; assumption.
  - destruct s as [|x s].
    + exists [], [], caps. split; [reflexivity|]. split; [left; reflexivity | exact H].
    + destruct (Ascii.eqb x c) eqn:E.
      * apply Ascii.eqb_eq in E. subst x.
        apply or_else_Some in H. destruct H as [H|[_ H]].
        -- exists [c], s, caps. split; [reflexivity|]. split; [right; reflexivity | exact H].
        -- exists [], (c :: s), caps. split; [reflexivity|].
           split; [left; reflexivity | exact H].
      * exists [], (x :: s), caps. split; [reflexivity|].
        split; [left; reflexivity | exact H].
  - apply or_else_Some in H. destruct H as [H|[_ H]].
    + destruct (IH1 _ _ _ _ H) as (t & s' & caps' & -> & Hl & Hk).
      exists t, s', caps'. split; [reflexivity|]. split; [left; exact Hl | exact Hk].
    + destruct (IH2 _ _ _ _ H) as (t & s' & caps' & -> & Hl & Hk).
      exists t, s', caps'. split; [reflexivity|]. split; [right; exact Hl | exact Hk].
  - destruct (IH1 _ _ _ _ H) as (t1 & s1 & caps1 & -> & Hl1 & Hk1).
    destruct (IH2 _ _ _ _ Hk1) as (t2 & s2 & caps2 & -> & Hl2 & Hk2).
    exists (t1 ++ t2), s2, caps2. split; [rewrite app_assoc; reflexivity|].
    split; [|exact Hk2].
    exists t1, t2. repeat split; assumption.
  - destruct (IH1 _ _ _ _ H) as (t & s' & caps' & -> & Hl & Hk).
    exists t, s'. eexists. split; [reflexivity|]. split; [exact Hl | exact Hk].
  - destruct s as [|c s].
    + exists [], [], caps. repeat split; [left; reflexivity | exact H].
    + destruct s as [|c' s]; [|discriminate H].
      destruct (Ascii.eqb c LF) eqn:E; [|discriminate H].
      apply Ascii.eqb_eq in E. subst c.
      exists [], [LF], caps. repeat split; [right; reflexivity | exact H].
Qed.

Lemma match_at_sound (r : regex) (pos : nat) (s : str) (m : rmatch) :
  match_at r pos s = Some m ->
  exists t rest, s = t ++ rest /\ lang r t rest /\
                 m_start m = pos /\ m_end m = (pos + length t)%nat.
Proof.
  unfold match_at. intros H.
  apply run_sound in H. destruct H as (t & s' & caps' & -> & Hl & Hk).
  injection Hk as <-. exists t, s'. simpl.
  repeat split; try assumption.
  rewrite length_app. f_equal. lia.
Qed.

Lemma star_ext {A : Type} (p : ascii -> bool) (s : str) (k k' : str -> option A) :
  (forall s', k s' = k' s') -> star p s k = star p s k'.
Proof.
  intros H. induction s as [|c s IH]; simpl.
  - apply H.
  - rewrite IH, H. reflexivity.
Qed.

Lemma run_ext {A : Type} (r : regex) :
  forall (s : str) (caps : list str) (k k' : str -> list str -> option A),
    (forall s' c, k s' c = k' s' c) -> run r s caps k = run r s caps k'.
Proof.
  induction r as [c| |p|p|c|r1 IH1 r2 IH2|r1 IH1 r2 IH2|r1 IH1|];
    intros s caps k k' H; simpl.
  - destruct s as [|x s]; [reflexivity|]. rewrite H. reflexivity.
  - destruct s as [|x s]; [reflexivity|]. rewrite H. reflexivity.
  - destruct s as [|x s]; [reflexivity|]. rewrite H. reflexivity.
  - apply star_ext. intros s'. apply H.
  - destruct s as [|x s]; rewrite ?H; reflexivity.
  - rewrite (IH1 _ _ k k' H), (IH2 _ _ k k' H). reflexivity.
  - apply IH1. intros s' c. apply IH2. exact H.
  - apply IH1. intros s' c. apply H.
  - destruct s as [|c [|c' s]]; rewrite ?H; reflexivity.
Qed.

Lemma or_else_map {A B : Type} (f : A -> B) (a b : option A) :
  or_else (option_map f a) (option_map f b) = option_map f (or_else a b).
Proof. destruct a; reflexivity. Qed.

Lemma star_map {A B : Type} (f : A -> B) (p : ascii -> bool) (s : str)
  (k : str -> option A) :
  star p s (fun s' => option_map f (k s')) = option_map f (star p s k).
Proof.
  induction s as [|c s IH]; simpl; [reflexivity|].
  destruct (p c); [|reflexivity].
  rewrite IH. apply or_else_map.
Qed.

(** The outcome of a run does not depend on what the continuation does with
    a match once it is found. *)
Lemma run_map {A B : Type} (f : A -> B) (r : regex) :
  forall (s : str) (caps : list str) (k : str -> list str -> option A),
    run r s caps (fun s' c => option_map f (k s' c)) = option_map f (run r s caps k).
Proof.
  induction r as [c| |p|p|c|r1 IH1 r2 IH2|r1 IH1 r2 IH2|r1 IH1|];
    intros s caps k; simpl.
  - destruct s as [|x s]; [reflexivity|]. destruct (Ascii.eqb x c); reflexivity.
  - destruct s as [|x s]; [reflexivity|]. destruct (Ascii.eqb x LF); reflexivity.
  - destruct s as [|x s]; [reflexivity|]. destruct (p x); reflexivity.
  - apply (star_map f p s (fun s' => k s' caps)).
  - destruct s as [|x s]; [reflexivity|].
    destruct (Ascii.eqb x c); [apply or_else_map | reflexivity].
  - rewrite IH1, IH2. apply or_else_map.
  - rewrite <- IH1. apply run_ext. intros s' c. apply IH2.
  - apply (IH1 s caps (fun s' caps' => k s' (caps' ++ [firstn (length s - length s') s]))).
  - destruct s as [|c [|c' s]]; try reflexivity.
    destruct (Ascii.eqb c LF); reflexivity.
Qed.

Lemma match_at_shift (r : regex) (pos : nat) (s : str) :
  match_at r pos s = option_map (shift_match pos) (match_at r 0 s).
Proof.
  unfold match_at. rewrite <- run_map. apply run_ext.
  intros s' c. unfold shift_match. simpl. rewrite Nat.add_0_r. reflexivity.
Qed.

Lemma search_from_shift (r : regex) (s : str) :
  forall pos, search_from r pos s = option_map (shift_match pos) (search_from r 0 s).
Proof.
  induction s as [|c s IH]; intros pos; simpl.
  - rewrite (match_at_shift r pos). destruct (match_at r 0 []); reflexivity.
  - rewrite (match_at_shift r pos). destruct (match_at r 0 (c :: s)); [reflexivity|].
    simpl. rewrite (IH (S pos)), (IH 1%nat).
    destruct (search_from r 0 s) as [m|]; [|reflexivity].
    simpl. unfold shift_match. simpl. f_equal. f_equal; lia.
Qed.

(** [search] returns the leftmost match: positions without a match are
    skipped. *)
Lemma search_from_skip (r : regex) (pre s : str) :
  forall pos,
    no_match_before r (pre ++ s) (length pre) = true ->
    search_from r pos (pre ++ s) = search_from r (pos + length pre) s.
Proof.
  induction pre as [|c pre IH]; intros pos H.
  - simpl. rewrite Nat.add_0_r. reflexivity.
  - simpl in H. destruct (match_at r 0 (c :: pre ++ s)) eqn:E; [discriminate H|].
    cbn [app search_from]. rewrite (match_at_shift r pos). cbn [app] in E. rewrite E.
    simpl option_map. cbv iota. rewrite (IH (S pos) H).
    f_equal. simpl. lia.
Qed.

Lemma search_from_sound (r : regex) (s : str) :
  forall pos m,
    search_from r pos s = Some m ->
    exists pre t rest,
      s = pre ++ t ++ rest /\ lang r t rest /\
      m_start m = (pos + length pre)%nat /\
      m_end m = (pos + length pre + length t)%nat.
Proof.
  induction s as [|c s IH]; intros pos m H; simpl in H.
  - destruct (match_at r pos []) eqn:E; [|discriminate H].
    injection H as ->.
    apply match_at_sound in E. destruct E as (t & rest & Hs & Hl & Hst & Hen).
    exists [], t, rest. simpl. rewrite Nat.add_0_r. repeat split; assumption.
  - destruct (match_at r pos (c :: s)) eqn:E.
    + injection H as ->.
      apply match_at_sound in E. destruct E as (t & rest & Hs & Hl & Hst & Hen).
      exists [], t, rest. simpl. rewrite Nat.add_0_r. repeat split; assumption.
    + destruct (IH _ _ H) as (pre & t & rest & -> & Hl & Hst & Hen).
      exists (c :: pre), t, rest. simpl. repeat split; try assumption; lia.
Qed.

Lemma star_greedy {A : Type} (p : ascii -> bool) (w rest : str)
  (k : str -> option A) (a : A) :
  forallb p w = true -> stops p rest = true -> k rest = Some a ->
  star p (w ++ rest) k = Some a.
Proof.
  intros Hw Hstop Hk. induction w as [|c w IH]; simpl.
  - destruct rest as [|c rest]; [exact Hk|].
    simpl in Hstop. apply negb_true_iff in Hstop. simpl. rewrite Hstop. exact Hk.
  - simpl in Hw. apply andb_prop in Hw. destruct Hw as [Hc Hw].
    rewrite Hc, (IH Hw). reflexivity.
Qed.

Lemma slice_middle (pre t rest : str) :
  slice (pre ++ t ++ rest) (length pre) (length pre + length t) = t.
Proof.
  unfold slice.
  rewrite skipn_app, skipn_all, Nat.sub_diag. simpl.
  replace (length pre + length t - length pre)%nat with (length t) by lia.
  rewrite firstn_app, firstn_all, Nat.sub_diag. simpl. apply app_nil_r.
Qed.

(** ** Numbers in decimal notation *)

Lemma digit_is_plain (c : ascii) :
  is_digit c = true ->
  is_space c = false /\ Ascii.eqb c "x" = false /\ Ascii.eqb c "-" = false /\
  Ascii.eqb c "+" = false /\ Ascii.eqb c "_" = false /\ Ascii.eqb c LF = false.
Proof.
  destruct c as [b0 b1 b2 b3 b4 b5 b6 b7].
  destruct b0, b1, b2, b3, b4, b5, b6, b7; intros H;
    try discriminate H; repeat split.
Qed.

Lemma lstrip_plain (s : str) :
  forallb (fun c => negb (is_space c)) s = true -> lstrip s = s.
Proof.
  destruct s as [|c s]; simpl; [reflexivity|].
  intros H. apply andb_prop in H. destruct H as [Hc _].
  apply negb_true_iff in Hc. rewrite Hc. reflexivity.
Qed.

Lemma forallb_rev {A : Type} (p : A -> bool) (l : list A) :
  forallb p (rev l) = forallb p l.
Proof.
  induction l as [|x l IH]; simpl; [reflexivity|].
  rewrite forallb_app, IH. simpl. rewrite andb_true_r. apply andb_comm.
Qed.

Lemma forallb_weaken {A : Type} (p q : A -> bool) (l : list A) :
  (forall x, p x = true -> q x = true) -> forallb p l = true -> forallb q l = true.
Proof.
  intros H. induction l as [|x l IH]; simpl; [reflexivity|].
  intros Hl. apply andb_prop in Hl. destruct Hl as [Hx Hl].
  rewrite (H x Hx), (IH Hl). reflexivity.
Qed.

Lemma digits_plain (w : str) :
  forallb is_digit w = true -> forallb (fun c => negb (is_space c)) w = true.
Proof.
  apply forallb_weaken. intros c Hc.
  destruct (digit_is_plain c Hc) as (-> & _). reflexivity.
Qed.

Lemma strip_digits (w : str) : forallb is_digit w = true -> strip w = w.
Proof.
  intros H. unfold strip.
  rewrite (lstrip_plain w (digits_plain w H)).
  rewrite lstrip_plain; [apply rev_involutive|].
  rewrite forallb_rev. exact (digits_plain w H).
Qed.


Lemma digitpart_from_digits (w : str) :
  forall acc n,
    forallb is_digit w = true ->
    digitpart_from acc n false w =
    Some (fold_left (fun a c => (10 * a + digit_val c)%Z) w acc, (n + length w)%nat).
Proof.
  induction w as [|c w IH]; intros acc n H; simpl.
  - rewrite Nat.add_0_r. reflexivity.
  - simpl in H. apply andb_prop in H. destruct H as [Hc Hw].
    rewrite Hc, (IH _ _ Hw). f_equal. f_equal. lia.
Qed.




Lemma split_chr_app (sep : ascii) (a b : str) :
  forallb (fun c => negb (Ascii.eqb c sep)) a = true ->
  split_chr sep (a ++ sep :: b) = a :: split_chr sep b.
Proof.
  induction a as [|c a IH]; simpl; intros H.
  - rewrite Ascii.eqb_refl. reflexivity.
  - apply andb_prop in H. destruct H as [Hc Ha].
    apply negb_true_iff in Hc. rewrite Hc, (IH Ha). reflexivity.
Qed.

Lemma digits_without (sep : ascii) (w : str) :
  is_digit sep = false ->
  forallb is_digit w = true -> forallb (fun c => negb (Ascii.eqb c sep)) w = true.
Proof.
  intros Hsep. apply forallb_weaken. intros c Hc.
  destruct (Ascii.eqb c sep) eqn:E; [|reflexivity].
  apply Ascii.eqb_eq in E. subst c. congruence.
Qed.

(** ** The size token *)










(** ** The rotation line *)











(** ** Rate tokens *)

Lemma star_backtrack_one {A : Type} (p : ascii -> bool) (w rest : str) (c : ascii)
  (k : str -> option A) (a : A) :
  forallb p w = true -> p c = true -> stops p rest = true ->
  k rest = None -> k (c :: rest) = Some a ->
  star p (w ++ c :: rest) k = Some a.
Proof.
  intros Hw Hc Hstop Hnone Hk. induction w as [|x w IH]; cbn [app star].
  - rewrite Hc.
    assert (E : star p rest k = None).
    { destruct rest as [|y rest]; [exact Hnone|].
      cbn [stops] in Hstop. apply negb_true_iff in Hstop.
      cbn [star]. rewrite Hstop. exact Hnone. }
    rewrite E. exact Hk.
  - cbn [forallb] in Hw. apply andb_prop in Hw. destruct Hw as [Hx Hw].
    rewrite Hx, (IH Hw). reflexivity.
Qed.

Lemma digits_snoc (d : str) :
  d <> [] -> exists w c, d = w ++ [c].
Proof.
  intros H. destruct (rev d) as [|c r] eqn:E.
  - exfalso. apply H. rewrite <- (rev_involutive d), E. reflexivity.
  - exists (rev r), c. rewrite <- (rev_involutive d), E. reflexivity.
Qed.

Lemma match_at_tbr_token (d post : str) (pos : nat) :
  forallb is_digit d = true -> d <> [] ->
  exists groups,
    match_at re_tbr pos (" " :: d ++ lit " tbr" ++ post) =
    Some (MkMatch pos (pos + (length d + 5)) groups).
Proof.
  intros Hd Hne.
  destruct (digits_snoc d Hne) as (w & c & ->).
  rewrite forallb_app in Hd. apply andb_prop in Hd. destruct Hd as [Hw Hc].
  cbn [forallb] in Hc. rewrite andb_true_r in Hc.
  destruct (digit_is_plain c Hc) as (_ & _ & _ & _ & _ & Hlf).
  eexists.
  unfold match_at, re_tbr. cbn [Seq run or_else Ascii.eqb Bool.eqb]. cbv iota.
  rewrite <- app_assoc. cbn [app].
  erewrite star_backtrack_one; [cbn [or_else]; reflexivity | exact Hw | exact Hc | reflexivity | reflexivity |].
  cbn [run]. rewrite Hlf.
  cbn [star lit list_ascii_of_string app is_digit run Lit Ascii.eqb Bool.eqb nat_of_ascii].
  change (is_digit " ") with false. cbv iota.
  match goal with
  | |- context [(length ?s - length post)%nat] =>
      replace (length s - length post)%nat with (length (w ++ [c]) + 5)%nat
        by (cbn [length]; rewrite !length_app; cbn [length]; lia)
  end.
  reflexivity.
Qed.

Lemma digits_not_contains (k : ascii) (d : str) :
  is_digit k = false -> forallb is_digit d = true -> contains [k] d = false.
Proof.
  intros Hk. induction d as [|c d IH]; intros Hd; [reflexivity|].
  cbn [forallb] in Hd. apply andb_prop in Hd. destruct Hd as [Hc Hd].
  cbn [contains startswith]. rewrite (IH Hd).
  destruct (Ascii.eqb k c) eqn:E; [|reflexivity].
  apply Ascii.eqb_eq in E. subst c. congruence.
Qed.

Lemma break_at_none (p : ascii -> bool) (s : str) :
  forallb (fun c => negb (p c)) s = true -> break_at p s = (s, None).
Proof.
  induction s as [|c s IH]; intros H; [reflexivity|].
  cbn [forallb] in H. apply andb_prop in H. destruct H as [Hc Hs].
  apply negb_true_iff in Hc. cbn [break_at]. rewrite Hc, (IH Hs). reflexivity.
Qed.

Lemma digit_not_letter (c : ascii) :
  is_digit c = true ->
  Ascii.eqb c "e" = false /\ Ascii.eqb c "E" = false /\ Ascii.eqb "." c = false /\
  Ascii.eqb c "k" = false /\ Ascii.eqb c " " = false.
Proof.
  destruct c as [b0 b1 b2 b3 b4 b5 b6 b7].
  destruct b0, b1, b2, b3, b4, b5, b6, b7; intros H;
    try discriminate H; repeat split.
Qed.

Lemma Qred_inject_Z (n : Z) : Qred (inject_Z n) = inject_Z n.
Proof.
  unfold Qred, inject_Z.
  pose proof (Z.ggcd_gcd n 1) as Hg.
  pose proof (Z.ggcd_correct_divisors n 1) as Hd.
  destruct (Z.ggcd n 1) as (g & a & b). cbn [fst snd] in *.
  rewrite Z.gcd_1_r in Hg. subst g. destruct Hd as [Ha Hb].
  rewrite Z.mul_1_l in Ha, Hb. subst a b. reflexivity.
Qed.

(** [float] of a run of digits is the integer it spells. *)
Lemma float_of_str_digits (d : str) :
  forallb is_digit d = true -> d <> [] ->
  float_of_str d = Ok (inject_Z (digits_value d)).
Proof.
  intros Hd Hne. unfold float_of_str. rewrite (strip_digits d Hd).
  destruct d as [|c d]; [contradiction|].
  assert (Hc : is_digit c = true) by (cbn [forallb] in Hd; apply andb_prop in Hd; tauto).
  destruct (digit_is_plain c Hc) as (_ & _ & Hm & Hp & _).
  unfold split_sign. rewrite Hm, Hp.
  rewrite break_at_none.
  2:{ revert Hd. apply forallb_weaken. intros x Hx.
      destruct (digit_not_letter x Hx) as (-> & -> & _). reflexivity. }
  unfold mantissa. rewrite break_at_none.
  2:{ revert Hd. apply forallb_weaken. intros x Hx.
      destruct (digit_not_letter x Hx) as (_ & _ & -> & _). reflexivity. }
  unfold digitpart. rewrite (digitpart_from_digits (c :: d) 0 0 Hd).
  unfold scale10. cbn [Z.of_nat Z.opp Z.leb Z.compare Z.pow]. 
  rewrite Z.mul_1_r. fold (digits_value (c :: d)).
  apply f_equal. apply Qred_inject_Z.
Qed.

Lemma get_tbr_integer_token (pre d post : str) :
  forallb is_digit d = true -> d <> [] ->
  no_match_before re_tbr (pre ++ " " :: d ++ lit " tbr" ++ post) (length pre) = true ->
  get_tbr (pre ++ " " :: d ++ lit " tbr" ++ post) = Ok (inject_Z (digits_value d)).
Proof.
  intros Hd Hne Hfirst. unfold get_tbr, re_search.
  rewrite (search_from_skip re_tbr pre _ 0 Hfirst).
  cbn [search_from Nat.add].
  destruct (match_at_tbr_token d post (length pre) Hd Hne) as (groups & ->).
  cbn [the_match]. rewrite bind_ret. cbn [m_start m_end].
  replace (pre ++ " " :: d ++ lit " tbr" ++ post)
    with (pre ++ (" " :: d ++ lit " tbr") ++ post)
    by (cbn [app]; rewrite <- app_assoc; reflexivity).
  replace (length pre + (length d + 5))%nat
    with (length pre + length (" " :: d ++ lit " tbr"))%nat
    by (cbn [length]; rewrite length_app; cbn; lia).
  rewrite slice_middle.
  change (" " :: d ++ lit " tbr") with ([] ++ " " :: d ++ " " :: lit "tbr").
  rewrite (split_chr_app " " [] _ eq_refl).
  rewrite (split_chr_app " " d).
  2:{ apply digits_without; [reflexivity | exact Hd]. }
  cbn [index_nth nth_error]. rewrite bind_ret.
  change (lit "k") with ["k"].
  rewrite (digits_not_contains "k" d eq_refl Hd).
  apply float_of_str_digits; assumption.
Qed.

Lemma match_at_fps_token (d post : str) (pos : nat) :
  forallb is_digit d = true -> d <> [] ->
  match_at re_fps pos (" " :: d ++ lit " fps" ++ post) =
  Some (MkMatch pos (pos + (length d + 5)) [d; []]).
Proof.
  intros Hd Hne. destruct d as [|c d]; [contradiction|].
  cbn [forallb] in Hd. apply andb_prop in Hd. destruct Hd as [Hc Hd].
  assert (Hdd : forallb digit_or_dot d = true).
  { revert Hd. apply forallb_weaken. intros x Hx. unfold digit_or_dot.
    rewrite Hx. reflexivity. }
  unfold match_at, re_fps. cbn [Seq Plus run Ascii.eqb Bool.eqb app]. cbv iota.
  unfold digit_or_dot at 1. rewrite Hc. cbn [orb].
  apply star_greedy; [exact Hdd | reflexivity |].
  cbn [lit list_ascii_of_string app run Lit Ascii.eqb Bool.eqb]. cbv iota.
  f_equal. f_equal.
  - f_equal. cbn [length]. rewrite !length_app. cbn [length]. lia.
  - cbn [app]. f_equal.
    + replace (length (c :: d ++ " " :: "f" :: "p" :: "s" :: post)
               - length (" " :: "f" :: "p" :: "s" :: post))%nat
        with (length (c :: d)) by (cbn [length]; rewrite !length_app; cbn [length]; lia).
      change (c :: d ++ " " :: "f" :: "p" :: "s" :: post)
        with ((c :: d) ++ " " :: "f" :: "p" :: "s" :: post).
      rewrite firstn_app, firstn_all, Nat.sub_diag. cbn [firstn]. apply app_nil_r.
    + rewrite Nat.sub_diag. reflexivity.
Qed.

Lemma get_fps_integer_token (pre d post : str) :
  forallb is_digit d = true -> d <> [] ->
  no_match_before re_fps (pre ++ " " :: d ++ lit " fps" ++ post) (length pre) = true ->
  get_fps (pre ++ " " :: d ++ lit " fps" ++ post) = Ok (inject_Z (digits_value d)).
Proof.
  intros Hd Hne Hfirst. unfold get_fps, re_search.
  rewrite (search_from_skip re_fps pre _ 0 Hfirst).
  cbn [search_from Nat.add].
  rewrite (match_at_fps_token d post (length pre) Hd Hne).
  cbn [the_match]. rewrite bind_ret.
  unfold group. cbn [m_groups Nat.sub nth].
  rewrite (float_of_str_digits d Hd Hne), bind_ret. reflexivity.
Qed.

(** ** Frame rates *)

Local Open Scope Q_scope.

Lemma flt_iff (a b : Q) : flt a b = true <-> a < b.
Proof.
  unfold flt. rewrite negb_true_iff.
  split; intros H.
  - apply Qnot_le_lt. intros Hle. apply Qle_bool_iff in Hle. congruence.
  - destruct (Qle_bool b a) eqn:E; [|reflexivity].
    apply Qle_bool_iff in E. exfalso. exact (Qlt_not_le _ _ H E).
Qed.


Lemma truthy_iff (a : Q) : truthy a = true <-> ~ a == 0.
Proof.
  unfold truthy. rewrite negb_true_iff. split; intros H.
  - intros E. apply Qeq_bool_iff in E. congruence.
  - destruct (Qeq_bool a 0) eqn:E; [|reflexivity].
    apply Qeq_bool_iff in E. contradiction.
Qed.

Lemma fdiv_nonzero (a b : Q) : ~ b == 0 -> fdiv a b = Ok (Qred (a / b)).
Proof.
  intros H. unfold fdiv. destruct (Qeq_bool b 0) eqn:E; [|reflexivity].
  apply Qeq_bool_iff in E. contradiction.
Qed.

(** [roughly_equal] decides the relative distance of [a] to [b]. *)
Lemma roughly_equal_spec (a b eps : Q) :
  ~ b == 0 ->
  exists r, roughly_equal a b eps = Ok r /\ (r = true <-> Qabs (a / b - 1) < eps).
Proof.
  intros Hb. unfold roughly_equal. rewrite (fdiv_nonzero a b Hb), bind_ret.
  eexists. split; [reflexivity|].
  rewrite flt_iff. unfold fabs, fsub.
  rewrite !Qred_correct. reflexivity.
Qed.

Lemma ntsc_rate (x : Z) : fmul (of_int x) coef == inject_Z x * (1000 # 1001).
Proof.
  unfold fmul, coef, of_int. rewrite !Qred_correct. reflexivity.
Qed.







(** ** Frame count *)

(** C10: when the duration is read from the diagnostic text, the frame count
    is [int(duration * r) + 1] for the rate [r] returned by
    [parse_video_fps], while the recorded frame rate is [adjust_fps r]; and
    there are inputs for which the frame count differs from
    [int(duration * video_fps) + 1] computed from the recorded rate. *)
Theorem frame_count_from_raw_rate :
  (forall popen FFMPEG_BINARY convert filename print_infos fps_source decode_file
          raw d meta,
      get_raw_metadata popen FFMPEG_BINARY filename = Ok raw ->
      parse_duration convert (endswith filename (lit ".gif")) (splitlines raw) = Ok d ->
      truthy d = true ->
      ffmpeg_parse_infos popen FFMPEG_BINARY convert filename print_infos true
        fps_source decode_file = Ok meta ->
      video_found meta = true ->
      exists line0 r fps',
        index_first (filter is_video_line (splitlines raw)) = Ok line0 /\
        parse_video_fps line0 fps_source = Ok r /\
        adjust_fps r = Ok fps' /\
        duration meta = Some d /\
        video_n_frames meta = Some (int_of_float (fmul d r) + 1)%Z /\
        video_fps meta = Some fps') /\
  (exists meta d fps n,
      ffmpeg_parse_infos (sample_popen video_only_output) (lit "ffmpeg")
        convert_to_seconds_spec (lit "clip.mp4") false true (lit "tbr") true = Ok meta /\
      duration meta = Some d /\
      video_fps meta = Some fps /\
      video_n_frames meta = Some n /\
      n <> (int_of_float (fmul d fps) + 1)%Z).
Proof.
  split.
  - intros popen ff convert filename pi src df raw d meta Hraw Hd Ht H Hfound.
    unfold ffmpeg_parse_infos in H. cbn [negb] in H. cbv iota in H.
    rewrite Hraw, bind_ret in H. cbv beta in H.
    rewrite Hd, bind_ret in H. cbv beta in H.
    apply bind_Ok in H. destruct H as (meta1 & Hm1 & H). injection H as <-.
    cbn [video_found set_audio set_video_found] in Hfound.
    destruct (filter is_video_line (splitlines raw)) as [|line0 rest] eqn:Hlines.
    + cbn in Hm1. injection Hm1 as <-. discriminate Hfound.
    + cbn [video_found set_video_found set_duration] in Hm1. cbv iota in Hm1.
      rewrite Ht in Hm1. cbn [negb] in Hm1. cbv iota in Hm1.
      cbn [index_first] in Hm1. rewrite !bind_ret in Hm1.
      apply bind_Ok in Hm1. destruct Hm1 as (meta2 & Hm2 & Hm1).
      apply bind_Ok in Hm2. destruct Hm2 as (r & Hr & Hm2). injection Hm2 as <-.
      apply bind_Ok in Hm1. destruct Hm1 as (line1 & Hline1 & Hm1).
      injection Hline1 as <-.
      apply bind_Ok in Hm1. destruct Hm1 as (sz & Hsz & Hm1).
      cbn [video_fps set_video_size set_video_duration
           set_video_n_frames set_video_fps number] in Hm1.
      rewrite bind_ret in Hm1.
      apply bind_Ok in Hm1. destruct Hm1 as (fps' & Hadj & Hm1).
      apply bind_Ok in Hm1. destruct Hm1 as (rot & Hrot & Hm1). injection Hm1 as <-.
      exists line0, r, fps'.
      split; [reflexivity|]. split; [assumption|]. split; [assumption|].
      repeat split.
  - eexists. exists (2001 # 2), (24000 # 1001), 23992%Z.
    split; [vm_compute; reflexivity|].
    repeat split. vm_compute. discriminate.
Qed.

Lemma frame_count_from_raw_rate_witness :
  exists meta,
    ffmpeg_parse_infos (sample_popen video_only_output) (lit "ffmpeg")
      convert_to_seconds_spec (lit "clip.mp4") false true (lit "tbr") true = Ok meta /\
    video_found meta = true /\
    exists r fps',
      parse_video_fps sample_video_line (lit "tbr") = Ok r /\
      adjust_fps r = Ok fps' /\
      video_n_frames meta = Some (int_of_float (fmul (2001 # 2) r) + 1)%Z /\
      video_fps meta = Some fps'.
Proof.
  destruct (ffmpeg_parse_infos (sample_popen video_only_output) (lit "ffmpeg")
              convert_to_seconds_spec (lit "clip.mp4") false true (lit "tbr") true)
    as [meta|e] eqn:E; [|vm_compute in E; discriminate E].
  exists meta. split; [reflexivity|].
  assert (Hfound : video_found meta = true).
  { vm_compute in E. injection E as <-. reflexivity. }
  split; [exact Hfound|].
  destruct (proj1 frame_count_from_raw_rate (sample_popen video_only_output) (lit "ffmpeg")
              convert_to_seconds_spec (lit "clip.mp4") false (lit "tbr") true
              video_only_output (2001 # 2) meta)
    as (line0 & r & fps' & Hline & Hr & Hadj & _ & Hn & Hfps);
    [vm_compute; reflexivity | vm_compute; reflexivity | reflexivity | exact E
    | exact Hfound |].
  assert (Hl : line0 = sample_video_line).
  { vm_compute in Hline. injection Hline as <-. reflexivity. }
  subst line0.
  exists r, fps'. repeat split; assumption.
Defined.

(** ** Frame-rate resolution *)

Lemma fle_iff (a b : Q) : fle a b = true <-> a <= b.
Proof. apply Qle_bool_iff. Qed.

Lemma usable_Some (r : result float) (v : float) :
  r = Ok v -> ~ v == 0 -> v <= 1000 -> usable (or_none r) = Some v.
Proof.
  intros -> Hnz Hle. cbn [or_none usable].
  apply truthy_iff in Hnz. apply fle_iff in Hle. rewrite Hnz, Hle. reflexivity.
Qed.

Lemma usable_None (r : result float) :
  unusable_rate r -> usable (or_none r) = None.
Proof.
  destruct r as [v|e]; cbn [unusable_rate or_none usable]; [|reflexivity].
  intros [Hz|Hbig].
  - destruct (truthy v) eqn:E; [|reflexivity].
    apply truthy_iff in E. contradiction.
  - destruct (fle v 1000) eqn:E; [|rewrite andb_false_r; reflexivity].
    apply fle_iff in E. exfalso. exact (Qlt_not_le _ _ Hbig E).
Qed.

Lemma parse_video_fps_tbr (line : str) :
  parse_video_fps line (lit "tbr") =
  match usable (or_none (get_tbr line)) with
  | Some p => Ok p
  | None =>
      match usable (or_none (get_fps line)) with
      | Some f => Ok f
      | None => Ok default_fps
      end
  end.
Proof. reflexivity. Qed.

(** A [tbr] token that spells an integer between 1 and 1000 is the result. *)
Lemma parse_video_fps_integer_tbr (pre d post : str) :
  forallb is_digit d = true -> d <> [] ->
  no_match_before re_tbr (pre ++ " " :: d ++ lit " tbr" ++ post) (length pre) = true ->
  (0 < digits_value d <= 1000)%Z ->
  parse_video_fps (pre ++ " " :: d ++ lit " tbr" ++ post) (lit "tbr")
  = Ok (inject_Z (digits_value d)).
Proof.
  intros Hd Hne Hfirst [Hpos Hle].
  rewrite parse_video_fps_tbr.
  rewrite (usable_Some _ _ (get_tbr_integer_token pre d post Hd Hne Hfirst)).
  - reflexivity.
  - intros E. unfold Qeq in E. cbn [inject_Z Qnum Qden] in E. lia.
  - change 1000 with (inject_Z 1000). rewrite <- Zle_Qle. exact Hle.
Qed.

(** C5: with [fps_source] ['tbr'], the result is the value of
    the [tbr] token when the token is read, is not zero and is at most 1000;
    otherwise it is the value of the [fps] token when that one is read, is
    not zero and is at most 1000; otherwise it is exactly 30.  The function
    returns a rate for every line. *)
Theorem parse_video_fps_policy :
  forall line : str,
    (forall v, get_tbr line = Ok v -> ~ v == 0 -> v <= 1000 ->
               parse_video_fps line (lit "tbr") = Ok v) /\
    (forall w, unusable_rate (get_tbr line) ->
               get_fps line = Ok w -> ~ w == 0 -> w <= 1000 ->
               parse_video_fps line (lit "tbr") = Ok w) /\
    (unusable_rate (get_tbr line) -> unusable_rate (get_fps line) ->
     parse_video_fps line (lit "tbr") = Ok 30) /\
    (exists r, parse_video_fps line (lit "tbr") = Ok r).
Proof.
  intros line. rewrite parse_video_fps_tbr.
  split; [|split; [|split]].
  - intros v Hv Hnz Hle. rewrite (usable_Some _ v Hv Hnz Hle). reflexivity.
  - intros w Ht Hw Hnz Hle.
    rewrite (usable_None _ Ht), (usable_Some _ w Hw Hnz Hle). reflexivity.
  - intros Ht Hf. rewrite (usable_None _ Ht), (usable_None _ Hf). reflexivity.
  - destruct (usable (or_none (get_tbr line))) as [p|]; [eexists; reflexivity|].
    destruct (usable (or_none (get_fps line))) as [f|]; eexists; reflexivity.
Qed.

Lemma parse_video_fps_policy_witness :
  get_tbr sample_video_line = Ok (1199 # 50) /\
  parse_video_fps sample_video_line (lit "tbr") = Ok (1199 # 50) /\
  unusable_rate (get_tbr zero_tbr_line) /\
  get_fps zero_tbr_line = Ok 25 /\
  parse_video_fps zero_tbr_line (lit "tbr") = Ok 25.
Proof.
  assert (Htbr : get_tbr sample_video_line = Ok (1199 # 50)) by (vm_compute; reflexivity).
  assert (Hzero : unusable_rate (get_tbr zero_tbr_line)).
  { assert (E : get_tbr zero_tbr_line = Ok 0) by (vm_compute; reflexivity).
    rewrite E. left. reflexivity. }
  assert (Hfps : get_fps zero_tbr_line = Ok 25) by (vm_compute; reflexivity).
  split; [exact Htbr|].
  split.
  - apply (proj1 (parse_video_fps_policy sample_video_line) (1199 # 50) Htbr).
    + vm_compute. discriminate.
    + vm_compute. discriminate.
  - split; [exact Hzero|]. split; [exact Hfps|].
    apply (proj1 (proj2 (parse_video_fps_policy zero_tbr_line)) 25 Hzero Hfps).
    + vm_compute. discriminate.
    + vm_compute. discriminate.
Defined.

(** A video line whose [tbr] token reads 0: the token is present and its
    value is at most 1000, yet the result is the value of the [fps] token. *)
Lemma parse_video_fps_zero_tbr :
  get_tbr zero_tbr_line = Ok 0 /\ 0 <= 1000 /\
  parse_video_fps zero_tbr_line (lit "tbr") = Ok 25 /\
  parse_video_fps zero_tbr_line (lit "tbr") <> Ok 0.
Proof.
  split; [vm_compute; reflexivity|].
  split; [vm_compute; discriminate|].
  split; [vm_compute; reflexivity | vm_compute; discriminate].
Qed.

(** * Further properties *)

(** ** Reading the diagnostic text *)

Lemma index_last_snoc {A : Type} (l : list A) (x : A) : index_last (l ++ [x]) = Ok x.
Proof. unfold index_last. rewrite rev_app_distr. reflexivity. Qed.

Lemma get_raw_metadata_eq popen FFMPEG_BINARY filename :
  get_raw_metadata popen FFMPEG_BINARY filename =
  (let infos := snd (popen (info_command FFMPEG_BINARY filename)) in
   last <- index_last (splitlines infos) ;;
   if contains (lit "No such file or directory") last
   then Raise (not_found_error filename)
   else Ok infos).
Proof.
  unfold get_raw_metadata, call_command, info_command.
  destruct (popen _) as [out err]. reflexivity.
Qed.

(** X1: when the last line that ffmpeg prints contains the words
    ['No such file or directory'], [ffmpeg_parse_infos] raises an [IOError]
    whose message contains the file name; nothing else of the text is
    parsed. *)
Theorem missing_file_is_reported :
  forall popen FFMPEG_BINARY convert filename print_infos fps_source decode_file
         lines last,
    splitlines (snd (popen (info_command FFMPEG_BINARY filename))) = lines ++ [last] ->
    contains (lit "No such file or directory") last = true ->
    ffmpeg_parse_infos popen FFMPEG_BINARY convert filename print_infos true
      fps_source decode_file = Raise (not_found_error filename) /\
    exists before after, not_found_error filename = IOError (before ++ filename ++ after).
Proof.
  intros popen ff convert filename pi src df lines last Hlines Hsig.
  split.
  - unfold ffmpeg_parse_infos. cbn [negb]. cbv iota.
    rewrite get_raw_metadata_eq. cbv zeta.
    rewrite Hlines, index_last_snoc, bind_ret, Hsig. reflexivity.
  - unfold not_found_error. eexists. eexists. reflexivity.
Qed.

Lemma missing_file_is_reported_witness :
  ffmpeg_parse_infos (sample_popen not_found_output) (lit "ffmpeg")
    convert_to_seconds_spec (lit "missing.mp4") false true (lit "tbr") true
  = Raise (not_found_error (lit "missing.mp4")).
Proof.
  apply (missing_file_is_reported (sample_popen not_found_output) (lit "ffmpeg")
           convert_to_seconds_spec (lit "missing.mp4") false (lit "tbr") true
           [lit "ffmpeg version 4.4.2 Copyright (c) 2000-2021 the FFmpeg developers"]
           (lit "missing.mp4: No such file or directory"));
    vm_compute; reflexivity.
Defined.

(** X2: [get_raw_metadata] looks for the missing-file message in the last
    line only.  A text without any line raises [IndexError]; a text whose
    last line does not contain ['No such file or directory'] is returned
    whole, whatever its earlier lines contain. *)
Theorem get_raw_metadata_last_line :
  forall popen FFMPEG_BINARY filename,
    let infos := snd (popen (info_command FFMPEG_BINARY filename)) in
    (splitlines infos = [] ->
     get_raw_metadata popen FFMPEG_BINARY filename = Raise IndexError) /\
    (forall lines last,
        splitlines infos = lines ++ [last] ->
        contains (lit "No such file or directory") last = false ->
        get_raw_metadata popen FFMPEG_BINARY filename = Ok infos).
Proof.
  intros popen ff filename infos. split.
  - intros H. rewrite get_raw_metadata_eq. cbv zeta. fold infos. rewrite H. reflexivity.
  - intros lines last H Hsig. rewrite get_raw_metadata_eq. cbv zeta. fold infos.
    rewrite H, index_last_snoc, bind_ret, Hsig. reflexivity.
Qed.

Lemma get_raw_metadata_last_line_witness :
  contains (lit "No such file or directory")
    (lit "/tmp/No such file or directory.mp4: some notice") = true /\
  get_raw_metadata (sample_popen early_signature_output) (lit "ffmpeg") (lit "clip.mp4")
  = Ok early_signature_output.
Proof.
  split; [vm_compute; reflexivity|].
  apply (proj2 (get_raw_metadata_last_line (sample_popen early_signature_output)
                  (lit "ffmpeg") (lit "clip.mp4"))
           [lit "/tmp/No such file or directory.mp4: some notice"; sample_duration_line]
           (lit "At least one output file must be specified"));
    vm_compute; reflexivity.
Defined.

(** ** Which line holds the duration *)

Lemma filter_first {A : Type} (p : A -> bool) (before after : list A) (x : A) :
  forallb (fun y => negb (p y)) before = true -> p x = true ->
  filter p (before ++ x :: after) = x :: filter p after.
Proof.
  intros Hb Hx. rewrite filter_app, (filter_none p before Hb).
  cbn [app filter]. rewrite Hx. reflexivity.
Qed.

Lemma filter_last {A : Type} (p : A -> bool) (before after : list A) (x : A) :
  forallb (fun y => negb (p y)) after = true -> p x = true ->
  filter p (before ++ x :: after) = filter p before ++ [x].
Proof.
  intros Ha Hx. rewrite filter_app. cbn [filter].
  rewrite Hx, (filter_none p after Ha). reflexivity.
Qed.

(** X3: for a file that is not a GIF, [parse_duration] reads the first line
    that contains ['Duration: ']; for a GIF it reads the last line that
    contains ['frame=']: the other lines do not change the result. *)
Theorem parse_duration_first_or_last :
  forall convert before l after,
    (forallb (fun y => negb (contains (lit "Duration: ") y)) before = true ->
     contains (lit "Duration: ") l = true ->
     parse_duration convert false (before ++ l :: after)
     = parse_duration convert false [l]) /\
    (forallb (fun y => negb (contains (lit "frame=") y)) after = true ->
     contains (lit "frame=") l = true ->
     parse_duration convert true (before ++ l :: after)
     = parse_duration convert true [l]).
Proof.
  intros convert before l after. split; intros Hno Hl; unfold parse_duration.
  - rewrite (filter_first _ before after l Hno Hl).
    cbn [filter]. rewrite Hl. reflexivity.
  - rewrite (filter_last _ before after l Hno Hl), index_last_snoc.
    cbn [filter]. rewrite Hl. reflexivity.
Qed.

Lemma parse_duration_first_or_last_witness :
  parse_duration convert_to_seconds_spec false
    [lit "Input #0"; short_duration_line; sample_duration_line] = Ok 5 /\
  parse_duration convert_to_seconds_spec true
    [gif_progress_early; gif_progress_final; lit "video:0kB"] = Ok 1.
Proof.
  split.
  - etransitivity;
      [exact (proj1 (parse_duration_first_or_last convert_to_seconds_spec
                       [lit "Input #0"] short_duration_line [sample_duration_line])
                eq_refl eq_refl)
      | vm_compute; reflexivity].
  - etransitivity;
      [exact (proj2 (parse_duration_first_or_last convert_to_seconds_spec
                       [gif_progress_early] gif_progress_final [lit "video:0kB"])
                eq_refl eq_refl)
      | vm_compute; reflexivity].
Defined.

(** ** Completeness of the matcher *)

Lemma or_else_not_none {A : Type} (a b : option A) :
  a <> None \/ b <> None -> or_else a b <> None.
Proof. destruct a; simpl; intros [H|H]; congruence. Qed.

Lemma star_keeps {A : Type} (p : ascii -> bool) (s : str) (k : str -> option A) :
  k s <> None -> star p s k <> None.
Proof.
  intros H. destruct s as [|c s]; cbn [star]; [exact H|].
  destruct (p c); [|exact H]. apply or_else_not_none. right. exact H.
Qed.

Lemma star_complete {A : Type} (p : ascii -> bool) (t rest : str)
  (k : str -> option A) :
  forallb p t = true -> k rest <> None -> star p (t ++ rest) k <> None.
Proof.
  intros Ht Hk. induction t as [|c t IH]; cbn [app].
  - apply star_keeps. exact Hk.
  - cbn [forallb] in Ht. apply andb_prop in Ht. destruct Ht as [Hc Ht].
    cbn [star]. rewrite Hc. apply or_else_not_none. left. exact (IH Ht).
Qed.

(** Completeness: when some text of the language of the expression starts
    the string, and the continuation accepts what follows it, the run
    succeeds. *)
Lemma run_complete {A : Type} (r : regex) :
  forall (t rest : str) (caps : list str) (k : str -> list str -> option A),
    lang r t rest -> (forall c, k rest c <> None) -> run r (t ++ rest) caps k <> None.
Proof.
  induction r as [c| |p|p|c|r1 IH1 r2 IH2|r1 IH1 r2 IH2|r1 IH1|];
    intros t rest caps k Hl Hk; cbn [lang] in Hl; cbn [run].
  - subst t. cbn [app]. rewrite Ascii.eqb_refl. apply Hk.
  - destruct Hl as (x & -> & Hx). cbn [app].
    apply Ascii.eqb_neq in Hx. rewrite Hx. apply Hk.
  - destruct Hl as (x & -> & Hx). cbn [app]. rewrite Hx. apply Hk.
  - apply star_complete; [exact Hl | apply Hk].
  - destruct Hl as [-> | ->]; cbn [app].
    + destruct rest as [|x rest]; [apply Hk|].
      destruct (Ascii.eqb x c); [|apply Hk].
      apply or_else_not_none. right. apply Hk.
    + rewrite Ascii.eqb_refl. apply or_else_not_none. left. apply Hk.
  - apply or_else_not_none. destruct Hl as [Hl|Hl].
    + left. exact (IH1 _ _ _ _ Hl Hk).
    + right. exact (IH2 _ _ _ _ Hl Hk).
  - destruct Hl as (t1 & t2 & -> & Hl1 & Hl2). rewrite <- app_assoc.
    apply IH1; [exact Hl1|]. intros c. apply IH2; [exact Hl2 | exact Hk].
  - apply IH1; [exact Hl|]. intros c. apply Hk.
  - destruct Hl as (-> & [-> | ->]); cbn [app]; [apply Hk|].
    rewrite Ascii.eqb_refl. apply Hk.
Qed.

Lemma search_from_complete (r : regex) (pre t rest : str) :
  forall pos, lang r t rest -> search_from r pos (pre ++ t ++ rest) <> None.
Proof.
  intros pos Hl. revert pos. induction pre as [|c pre IH]; intros pos.
  - cbn [app].
    assert (Hm : match_at r pos (t ++ rest) <> None).
    { unfold match_at. apply run_complete; [exact Hl | discriminate]. }
    destruct (t ++ rest) as [|c s]; cbn [search_from];
      destruct (match_at r pos _); congruence.
  - cbn [app search_from]. destruct (match_at r pos _); [discriminate | apply IH].
Qed.

(** [search] finds nothing exactly when no part of the string is in the
    language of the expression. *)
Lemma re_search_none_iff (r : regex) (l : str) :
  re_search r l = None <->
  (forall pre t rest, l = pre ++ t ++ rest -> ~ lang r t rest).
Proof.
  split.
  - intros H pre t rest -> Hl. exact (search_from_complete r pre t rest 0 Hl H).
  - intros H. destruct (re_search r l) as [m|] eqn:E; [|reflexivity].
    exfalso. unfold re_search in E. apply search_from_sound in E.
    destruct E as (pre & t & rest & Hl & Hlang & _). exact (H pre t rest Hl Hlang).
Qed.

Lemma match_at_timestamp (ts post : str) (pos : nat) :
  is_timestamp ts = true ->
  match_at re_timestamp pos (ts ++ post) = Some (MkMatch pos (pos + 11) [ts]).
Proof.
  intros H.
  destruct ts as [|a [|b [|c1 [|c [|d [|c2 [|e [|f [|x [|g [|h [|? ?]]]]]]]]]]]];
    try discriminate H.
  cbn [is_timestamp] in H.
  do 10 (apply andb_prop in H; let H' := fresh "H" in destruct H as [H H']).
  apply negb_true_iff in H2.
  unfold match_at, re_timestamp. cbn [Seq run app].
  repeat match goal with
         | E : ?b = true |- context [if ?b then _ else _] => rewrite E
         | E : ?b = false |- context [if ?b then _ else _] => rewrite E
         end.
  cbn [app].
  replace (length (a :: b :: c1 :: c :: d :: c2 :: e :: f :: x :: g :: h :: post)
           - length post)%nat with 11%nat by (cbn [length]; lia).
  reflexivity.
Qed.

Lemma re_findall_first (r : regex) (l : str) (m : rmatch) :
  re_search r l = Some m -> exists rest, re_findall r l = group m 1 :: rest.
Proof.
  intros H. unfold re_findall. cbn [findall_fuel]. rewrite H.
  eexists. reflexivity.
Qed.

Lemma re_findall_none (r : regex) (l : str) :
  re_search r l = None -> re_findall r l = [].
Proof. intros H. unfold re_findall. cbn [findall_fuel]. rewrite H. reflexivity. Qed.

Lemma parse_duration_single convert is_GIF l :
  contains (duration_keyword is_GIF) l = true ->
  parse_duration convert is_GIF [l] =
  match re_findall re_timestamp l with
  | m0 :: _ => convert m0
  | [] => Ok 0
  end.
Proof.
  intros H. unfold parse_duration. fold (duration_keyword is_GIF).
  cbn [filter]. rewrite H. destruct is_GIF; reflexivity.
Qed.

(** X4: on the line that holds the keyword, [parse_duration] returns 0 when
    no text of the form [HH:MM:SS.ff] occurs in it, and otherwise it is
    [convert_to_seconds] of the leftmost such text, with the value or the
    exception of that call. *)
Theorem parse_duration_timestamp :
  forall convert is_GIF l,
    contains (duration_keyword is_GIF) l = true ->
    ((forall pre t rest, l = pre ++ t ++ rest -> ~ lang re_timestamp t rest) ->
     parse_duration convert is_GIF [l] = Ok 0) /\
    (forall pre ts post,
        l = pre ++ ts ++ post -> is_timestamp ts = true ->
        no_match_before re_timestamp l (length pre) = true ->
        parse_duration convert is_GIF [l] = convert ts).
Proof.
  intros convert is_GIF l Hkw. rewrite (parse_duration_single _ _ _ Hkw). split.
  - intros Hno. rewrite re_findall_none; [reflexivity|].
    apply re_search_none_iff. exact Hno.
  - intros pre ts post -> Hts Hfirst.
    assert (Hs : re_search re_timestamp (pre ++ ts ++ post)
                 = Some (MkMatch (length pre) (length pre + 11) [ts])).
    { unfold re_search. rewrite (search_from_skip _ pre _ 0 Hfirst).
      destruct (ts ++ post) as [|c s] eqn:E.
      - destruct ts; [discriminate Hts | discriminate E].
      - cbn [search_from]. rewrite <- E, (match_at_timestamp ts post _ Hts). reflexivity. }
    destruct (re_findall_first _ _ _ Hs) as (rest & ->). reflexivity.
Qed.

Lemma parse_duration_timestamp_witness :
  parse_duration convert_to_seconds_spec false [sample_duration_line] = Ok (2001 # 2) /\
  parse_duration convert_to_seconds_spec false [lit "  Duration: N/A, bitrate: N/A"] = Ok 0.
Proof.
  split.
  - etransitivity;
      [exact (proj2 (parse_duration_timestamp convert_to_seconds_spec false
                       sample_duration_line eq_refl)
                (lit "  Duration: ") (lit "00:16:40.50")
                (lit ", start: 0.000000, bitrate: 1337 kb/s") eq_refl eq_refl eq_refl)
      | vm_compute; reflexivity].
  - apply (proj1 (parse_duration_timestamp convert_to_seconds_spec false
                    (lit "  Duration: N/A, bitrate: N/A") eq_refl)).
    apply re_search_none_iff. vm_compute. reflexivity.
Defined.

(** ** The rounding correction *)





Lemma loop_step fps x xs :
  (0 < x)%Z ->
  adjust_fps_loop fps (x :: xs) = Ok (fmul (of_int x) coef) \/
  adjust_fps_loop fps (x :: xs) = adjust_fps_loop fps xs.
Proof.
  intros Hx. cbn [adjust_fps_loop].
  destruct (feq fps (of_int x)); cbn [negb]; [right; reflexivity|].
  destruct (roughly_equal_spec fps (fmul (of_int x) coef) (1 # 100)) as (r & Hr & _).
  { rewrite ntsc_rate. intros E0.
    assert (inject_Z 0 < inject_Z x) by (rewrite <- Zlt_Qlt; exact Hx).
    change (inject_Z 0) with 0 in H. lra. }
  rewrite Hr, bind_ret. destruct r; [left | right]; reflexivity.
Qed.

Lemma adjust_fps_cases fps :
  adjust_fps fps = Ok fps \/
  exists x, In x [23; 24; 25; 30; 50]%Z /\ adjust_fps fps = Ok (fmul (of_int x) coef).
Proof.
  unfold adjust_fps.
  destruct (loop_step fps 23 [24; 25; 30; 50]%Z eq_refl) as [H|H];
    [right; exists 23%Z; split; [cbn; tauto | exact H] | rewrite H; clear H].
  destruct (loop_step fps 24 [25; 30; 50]%Z eq_refl) as [H|H];
    [right; exists 24%Z; split; [cbn; tauto | exact H] | rewrite H; clear H].
  destruct (loop_step fps 25 [30; 50]%Z eq_refl) as [H|H];
    [right; exists 25%Z; split; [cbn; tauto | exact H] | rewrite H; clear H].
  destruct (loop_step fps 30 [50]%Z eq_refl) as [H|H];
    [right; exists 30%Z; split; [cbn; tauto | exact H] | rewrite H; clear H].
  destruct (loop_step fps 50 []%Z eq_refl) as [H|H];
    [right; exists 50%Z; split; [cbn; tauto | exact H] | rewrite H; clear H].
  left. reflexivity.
Qed.

Lemma adjust_fps_stable fps r : adjust_fps fps = Ok r -> adjust_fps r = Ok r.
Proof.
  intros H. destruct (adjust_fps_cases fps) as [E | (x & Hx & E)];
    rewrite E in H; injection H as <-.
  - exact E.
  - cbn [In] in Hx.
    destruct Hx as [<-|[<-|[<-|[<-|[<-|[]]]]]]; vm_compute; reflexivity.
Qed.

(** X6: [adjust_fps] always returns a rate, and the rate it returns is left
    unchanged by a second call (rates as exact rationals). *)
Theorem adjust_fps_idempotent :
  forall fps : Q, exists r, adjust_fps fps = Ok r /\ adjust_fps r = Ok r.
Proof.
  intros fps.
  destruct (adjust_fps_cases fps) as [E | (x & _ & E)];
    eexists; (split; [exact E | exact (adjust_fps_stable _ _ E)]).
Qed.

(** ** The frame-counting probe *)











(** ** The two frame-rate sources *)

Lemma usable_in_range (v : option float) (x : float) :
  usable v = Some x -> v = Some x /\ ~ x == 0 /\ x <= 1000.
Proof.
  destruct v as [y|]; cbn [usable]; [|discriminate].
  destruct (truthy y && fle y 1000) eqn:E; [|discriminate].
  intros H. injection H as <-.
  apply andb_prop in E. destruct E as [Ht Hl].
  split; [reflexivity|]. split; [apply truthy_iff; exact Ht | apply fle_iff; exact Hl].
Qed.

Lemma parse_video_fps_fps (line : str) :
  parse_video_fps line (lit "fps") =
  match usable (or_none (get_fps line)) with
  | Some p => Ok p
  | None =>
      match usable (or_none (get_tbr line)) with
      | Some f => Ok f
      | None => Ok default_fps
      end
  end.
Proof. reflexivity. Qed.

(** X8: [parse_video_fps] raises [KeyError] for an [fps_source] other than
    ['tbr'] and ['fps']; a rate that it returns is never zero and never
    above 1000. *)
Theorem parse_video_fps_in_range :
  forall (line fps_source : str),
    (str_eqb fps_source (lit "tbr") = false ->
     str_eqb fps_source (lit "fps") = false ->
     parse_video_fps line fps_source = Raise (KeyError fps_source)) /\
    (forall r,
        parse_video_fps line fps_source = Ok r -> ~ r == 0 /\ r <= 1000).
Proof.
  intros line src. split.
  - intros H1 H2. unfold parse_video_fps. rewrite H1, H2. reflexivity.
  - intros r H. unfold parse_video_fps in H.
    destruct (str_eqb src (lit "tbr")); [|destruct (str_eqb src (lit "fps"))];
      cbn [bind] in H; try discriminate H.
    + destruct (usable (or_none (get_tbr line))) as [p|] eqn:Ep.
      * injection H as <-. apply usable_in_range in Ep. tauto.
      * destruct (usable (or_none (get_fps line))) as [f|] eqn:Ef.
        -- injection H as <-. apply usable_in_range in Ef. tauto.
        -- injection H as <-. split; [vm_compute; discriminate | vm_compute; discriminate].
    + destruct (usable (or_none (get_fps line))) as [p|] eqn:Ep.
      * injection H as <-. apply usable_in_range in Ep. tauto.
      * destruct (usable (or_none (get_tbr line))) as [f|] eqn:Ef.
        -- injection H as <-. apply usable_in_range in Ef. tauto.
        -- injection H as <-. split; [vm_compute; discriminate | vm_compute; discriminate].
Qed.

Lemma parse_video_fps_in_range_witness :
  parse_video_fps sample_video_line (lit "auto") = Raise (KeyError (lit "auto")) /\
  ~ (1199 # 50) == 0 /\ (1199 # 50) <= 1000.
Proof.
  split.
  - apply (proj1 (parse_video_fps_in_range sample_video_line (lit "auto")));
      reflexivity.
  - apply (proj2 (parse_video_fps_in_range sample_video_line (lit "tbr"))).
    vm_compute. reflexivity.
Defined.

(** X9: [fps_source] decides only when both tokens are usable (read, not
    zero, at most 1000): then ['tbr'] gives the value of the [tbr] token and
    ['fps'] that of the [fps] token.  When one of the two is unusable, both
    settings return the same rate. *)
Theorem parse_video_fps_source_choice :
  forall line : str,
    (forall t f,
        get_tbr line = Ok t -> ~ t == 0 -> t <= 1000 ->
        get_fps line = Ok f -> ~ f == 0 -> f <= 1000 ->
        parse_video_fps line (lit "tbr") = Ok t /\
        parse_video_fps line (lit "fps") = Ok f) /\
    (unusable_rate (get_tbr line) \/ unusable_rate (get_fps line) ->
     parse_video_fps line (lit "fps") = parse_video_fps line (lit "tbr")).
Proof.
  intros line. rewrite parse_video_fps_tbr, parse_video_fps_fps. split.
  - intros t f Ht Htz Htl Hf Hfz Hfl.
    rewrite (usable_Some _ t Ht Htz Htl), (usable_Some _ f Hf Hfz Hfl).
    split; reflexivity.
  - intros [H|H]; rewrite (usable_None _ H).
    + destruct (usable (or_none (get_fps line))); reflexivity.
    + destruct (usable (or_none (get_tbr line))); reflexivity.
Qed.

Lemma parse_video_fps_source_choice_witness :
  parse_video_fps mixed_rate_line (lit "tbr") = Ok 30 /\
  parse_video_fps mixed_rate_line (lit "fps") = Ok 15 /\
  parse_video_fps zero_tbr_line (lit "fps") = parse_video_fps zero_tbr_line (lit "tbr").
Proof.
  assert (Ht : get_tbr mixed_rate_line = Ok 30) by (vm_compute; reflexivity).
  assert (Hf : get_fps mixed_rate_line = Ok 15) by (vm_compute; reflexivity).
  destruct (proj1 (parse_video_fps_source_choice mixed_rate_line) 30 15 Ht
              ltac:(vm_compute; discriminate) ltac:(vm_compute; discriminate) Hf
              ltac:(vm_compute; discriminate) ltac:(vm_compute; discriminate))
    as [H1 H2].
  split; [exact H1|]. split; [exact H2|].
  apply (proj2 (parse_video_fps_source_choice zero_tbr_line)).
  left. assert (E : get_tbr zero_tbr_line = Ok 0) by (vm_compute; reflexivity).
  rewrite E. left. reflexivity.
Defined.

(** ** Rates written with the suffix [k] *)

Lemma remove_chr_digits (k : ascii) (d : str) :
  is_digit k = false -> forallb is_digit d = true -> remove_chr k (d ++ [k]) = d.
Proof.
  intros Hk Hd. unfold remove_chr. rewrite filter_app. cbn [filter].
  rewrite Ascii.eqb_refl. cbn [negb]. rewrite app_nil_r.
  induction d as [|c d IH]; [reflexivity|].
  cbn [forallb] in Hd. apply andb_prop in Hd. destruct Hd as [Hc Hd].
  cbn [filter].
  destruct (Ascii.eqb c k) eqn:E.
  - apply Ascii.eqb_eq in E. subst c. congruence.
  - cbn [negb]. rewrite (IH Hd). reflexivity.
Qed.

Lemma contains_suffix_chr (k : ascii) (d : str) : contains [k] (d ++ [k]) = true.
Proof.
  induction d as [|c d IH]; cbn [app contains startswith].
  - rewrite Ascii.eqb_refl. reflexivity.
  - rewrite IH. apply orb_true_r.
Qed.

Lemma thousands (v : Z) : fmul (inject_Z v) 1000 = inject_Z (1000 * v).
Proof.
  unfold fmul.
  replace (inject_Z v * 1000) with (inject_Z (1000 * v)).
  - apply Qred_inject_Z.
  - unfold Qmult, inject_Z. cbn [Qnum Qden Pos.mul]. f_equal. lia.
Qed.

Lemma match_at_tbr_kilo (d post : str) (pos : nat) :
  forallb is_digit d = true ->
  exists groups,
    match_at re_tbr pos (" " :: d ++ lit "k tbr" ++ post) =
    Some (MkMatch pos (pos + (length d + 6)) groups).
Proof.
  intros Hd. eexists.
  unfold match_at, re_tbr. cbn [Seq run or_else Ascii.eqb Bool.eqb]. cbv iota.
  erewrite star_greedy; [cbn [or_else]; reflexivity | exact Hd | reflexivity |].
  cbn [lit list_ascii_of_string app run star Lit Ascii.eqb Bool.eqb]. cbv iota.
  change (is_digit " ") with false. cbv iota.
  match goal with
  | |- context [(length ?s - length post)%nat] =>
      replace (length s - length post)%nat with (length d + 6)%nat
        by (cbn [length]; rewrite !length_app; cbn [length]; lia)
  end.
  reflexivity.
Qed.

Lemma get_tbr_kilo_token (pre d post : str) :
  forallb is_digit d = true -> d <> [] ->
  no_match_before re_tbr (pre ++ " " :: d ++ lit "k tbr" ++ post) (length pre) = true ->
  get_tbr (pre ++ " " :: d ++ lit "k tbr" ++ post) = Ok (inject_Z (1000 * digits_value d)).
Proof.
  intros Hd Hne Hfirst. unfold get_tbr, re_search.
  rewrite (search_from_skip re_tbr pre _ 0 Hfirst).
  cbn [search_from Nat.add].
  destruct (match_at_tbr_kilo d post (length pre) Hd) as (groups & ->).
  cbn [the_match]. rewrite bind_ret. cbn [m_start m_end].
  replace (pre ++ " " :: d ++ lit "k tbr" ++ post)
    with (pre ++ (" " :: d ++ lit "k tbr") ++ post)
    by (cbn [app]; rewrite <- app_assoc; reflexivity).
  replace (length pre + (length d + 6))%nat
    with (length pre + length (" " :: d ++ lit "k tbr"))%nat
    by (cbn [length]; rewrite length_app; cbn; lia).
  rewrite slice_middle.
  change (" " :: d ++ lit "k tbr") with ([] ++ " " :: (d ++ ["k"]%char) ++ " " :: lit "tbr")
    || replace (" " :: d ++ lit "k tbr") with ([] ++ " " :: (d ++ ["k"]) ++ " " :: lit "tbr")
         by (cbn [app]; rewrite <- app_assoc; reflexivity).
  rewrite (split_chr_app " " [] _ eq_refl).
  rewrite (split_chr_app " " (d ++ ["k"])).
  2:{ rewrite forallb_app. cbn [forallb].
      rewrite (digits_without " " d eq_refl Hd). reflexivity. }
  cbn [index_nth nth_error]. rewrite bind_ret.
  change (lit "k") with ["k"].
  rewrite (contains_suffix_chr "k" d), (remove_chr_digits "k" d eq_refl Hd).
  rewrite (float_of_str_digits d Hd Hne), bind_ret.
  f_equal. apply thousands.
Qed.

Lemma match_at_fps_kilo (d post : str) (pos : nat) :
  forallb is_digit d = true -> d <> [] ->
  match_at re_fps pos (" " :: d ++ lit "k fps" ++ post) =
  Some (MkMatch pos (pos + (length d + 6)) [d; ["k"]]).
Proof.
  intros Hd Hne. destruct d as [|c d]; [contradiction|].
  cbn [forallb] in Hd. apply andb_prop in Hd. destruct Hd as [Hc Hd].
  assert (Hdd : forallb digit_or_dot d = true).
  { revert Hd. apply forallb_weaken. intros x Hx. unfold digit_or_dot.
    rewrite Hx. reflexivity. }
  unfold match_at, re_fps. cbn [Seq Plus run Ascii.eqb Bool.eqb app]. cbv iota.
  unfold digit_or_dot at 1. rewrite Hc. cbn [orb].
  apply star_greedy; [exact Hdd | reflexivity |].
  cbn [lit list_ascii_of_string app run Lit Ascii.eqb Bool.eqb or_else]. cbv iota.
  cbn [or_else].
  f_equal. f_equal.
  - f_equal. cbn [length]. rewrite !length_app. cbn [length]. lia.
  - cbn [app]. f_equal.
    + replace (length (c :: d ++ "k" :: " " :: "f" :: "p" :: "s" :: post)
               - length ("k" :: " " :: "f" :: "p" :: "s" :: post))%nat
        with (length (c :: d)) by (cbn [length]; rewrite !length_app; cbn [length]; lia).
      change (c :: d ++ "k" :: " " :: "f" :: "p" :: "s" :: post)
        with ((c :: d) ++ "k" :: " " :: "f" :: "p" :: "s" :: post).
      rewrite firstn_app, firstn_all, Nat.sub_diag. cbn [firstn]. apply app_nil_r.
    + f_equal.
      replace (length ("k" :: " " :: "f" :: "p" :: "s" :: post)
               - length (" " :: "f" :: "p" :: "s" :: post))%nat with 1%nat
        by (cbn [length]; lia).
      reflexivity.
Qed.

Lemma get_fps_kilo_token (pre d post : str) :
  forallb is_digit d = true -> d <> [] ->
  no_match_before re_fps (pre ++ " " :: d ++ lit "k fps" ++ post) (length pre) = true ->
  get_fps (pre ++ " " :: d ++ lit "k fps" ++ post) = Ok (inject_Z (1000 * digits_value d)).
Proof.
  intros Hd Hne Hfirst. unfold get_fps, re_search.
  rewrite (search_from_skip re_fps pre _ 0 Hfirst).
  cbn [search_from Nat.add].
  rewrite (match_at_fps_kilo d post (length pre) Hd Hne).
  cbn [the_match]. rewrite bind_ret.
  unfold group. cbn [m_groups Nat.sub nth].
  rewrite (float_of_str_digits d Hd Hne), bind_ret.
  change (str_eqb ["k"] (lit "k")) with true. cbv iota.
  f_equal. apply thousands.
Qed.

(** X10: a rate written as digits followed by [k], as in [' 12k tbr'] or
    [' 12k fps'], is read as a thousand times the number, by [get_tbr] and by
    [get_fps]. *)
Theorem kilo_suffix_multiplies :
  forall pre d post : str,
    forallb is_digit d = true -> d <> [] ->
    (no_match_before re_tbr (pre ++ " " :: d ++ lit "k tbr" ++ post) (length pre) = true ->
     get_tbr (pre ++ " " :: d ++ lit "k tbr" ++ post)
     = Ok (inject_Z (1000 * digits_value d))) /\
    (no_match_before re_fps (pre ++ " " :: d ++ lit "k fps" ++ post) (length pre) = true ->
     get_fps (pre ++ " " :: d ++ lit "k fps" ++ post)
     = Ok (inject_Z (1000 * digits_value d))).
Proof.
  intros pre d post Hd Hne. split; intros Hfirst.
  - exact (get_tbr_kilo_token pre d post Hd Hne Hfirst).
  - exact (get_fps_kilo_token pre d post Hd Hne Hfirst).
Qed.

Lemma kilo_suffix_multiplies_witness :
  get_tbr (lit "    Stream #0:0: Video: h264, 640x480, 12k tbr, 90k tbn") = Ok 12000 /\
  get_fps (lit "    Stream #0:0: Video: h264, 640x480, 1k fps") = Ok 1000.
Proof.
  split.
  - apply (proj1 (kilo_suffix_multiplies (lit "    Stream #0:0: Video: h264, 640x480,")
                    (lit "12") (lit ", 90k tbn") eq_refl ltac:(discriminate))).
    vm_compute. reflexivity.
  - apply (proj2 (kilo_suffix_multiplies (lit "    Stream #0:0: Video: h264, 640x480,")
                    (lit "1") [] eq_refl ltac:(discriminate))).
    vm_compute. reflexivity.
Defined.

(** ** The audio line *)






(** ** The returned record *)

Lemma found_iff_exists {A : Type} (p : A -> bool) (l : list A) :
  match filter p l with [] => false | _ :: _ => true end = existsb p l.
Proof.
  induction l as [|x l IH]; cbn [filter existsb]; [reflexivity|].
  destruct (p x); [reflexivity | exact IH].
Qed.

(** The part of [ffmpeg_parse_infos] that runs when a video line is found. *)
Lemma video_branch_fields popen filename fps_source (lines : list str)
  (d : float) (line0 : str) (rest : list str) (meta : VideoMetaData) :
  filter is_video_line lines = line0 :: rest ->
  (meta0 <-
     (if negb (truthy d) then
        fn <- get_alt_fps_n_frames popen filename ;;
        (let (fps, n_frames) := (fn : float * Z) in
         vd <- fdiv (of_int n_frames) fps ;;
         Ok (set_duration
               (set_video_n_frames
                  (set_video_fps
                     (set_video_duration
                        (set_video_found (set_duration VideoMetaData_default d) true) vd)
                     fps) n_frames) vd))
      else
        l0 <- index_first (line0 :: rest) ;;
        r <- parse_video_fps l0 fps_source ;;
        Ok (set_video_duration
              (set_video_n_frames
                 (set_video_fps
                    (set_video_found (set_duration VideoMetaData_default d) true) r)
                 (int_of_float (fmul d r) + 1)) d)) ;;
   l0 <- index_first (line0 :: rest) ;;
   sz <- parse_video_size l0 ;;
   fps <- number (video_fps (set_video_size meta0 sz)) ;;
   fps' <- adjust_fps fps ;;
   rot <- parse_rotation lines ;;
   Ok (set_video_rotation (set_video_fps (set_video_size meta0 sz) fps') rot)) = Ok meta ->
  video_found meta = true /\ size meta = None /\
  audio_found meta = false /\
  exists f n dd sz,
    video_fps meta = Some f /\ adjust_fps f = Ok f /\
    video_n_frames meta = Some n /\
    video_duration meta = Some dd /\ duration meta = Some dd /\
    video_size meta = Some sz /\
    parse_video_size line0 = Ok sz /\
    parse_rotation lines = Ok (video_rotation meta).
Proof.
  intros Hlines H.
  apply bind_Ok in H. destruct H as (meta0 & Hmeta0 & H).
  cbn [index_first] in H. rewrite bind_ret in H.
  apply bind_Ok in H. destruct H as (sz & Hsz & H).
  assert (Hinv : video_found meta0 = true /\ size meta0 = None /\
                 audio_found meta0 = false /\
                 exists f n dd, video_fps meta0 = Some f /\ video_n_frames meta0 = Some n /\
                                video_duration meta0 = Some dd /\ duration meta0 = Some dd).
  { destruct (negb (truthy d)).
    - apply bind_Ok in Hmeta0. destruct Hmeta0 as ([fps n] & _ & Hmeta0).
      apply bind_Ok in Hmeta0. destruct Hmeta0 as (vd & _ & Hmeta0).
      injection Hmeta0 as <-. repeat split. exists fps, n, vd. repeat split.
    - cbn [index_first] in Hmeta0. rewrite bind_ret in Hmeta0.
      apply bind_Ok in Hmeta0. destruct Hmeta0 as (r & _ & Hmeta0).
      injection Hmeta0 as <-. repeat split. eexists. eexists. exists d. repeat split. }
  destruct Hinv as (Hf & Hs & Ha & f & n & dd & Hfps & Hn & Hvd & Hd).
  cbn [set_video_size video_fps] in H. rewrite Hfps in H. cbn [number] in H.
  rewrite bind_ret in H.
  apply bind_Ok in H. destruct H as (fps' & Hadj & H).
  apply bind_Ok in H. destruct H as (rot & Hrot & H).
  injection H as <-.
  cbn. repeat split; try assumption.
  exists fps', n, dd, sz. repeat split; try assumption.
  exact (adjust_fps_stable _ _ Hadj).
Qed.

(** X12: in a record returned by [ffmpeg_parse_infos], [video_found] and
    [audio_found] tell whether the text has a video line and an audio line,
    [size] is never set, and [duration] is set.  When a video is found, the
    frame rate, the frame count and the video size are set, [video_duration]
    equals [duration], [video_rotation] is the result of [parse_rotation] and
    the frame rate is one that [adjust_fps] leaves unchanged. *)
Theorem returned_record_is_consistent :
  forall popen FFMPEG_BINARY convert filename print_infos check_duration fps_source
         decode_file raw meta,
    get_raw_metadata popen FFMPEG_BINARY filename = Ok raw ->
    ffmpeg_parse_infos popen FFMPEG_BINARY convert filename print_infos check_duration
      fps_source decode_file = Ok meta ->
    video_found meta = existsb is_video_line (splitlines raw) /\
    audio_found meta = existsb (contains (lit " Audio: ")) (splitlines raw) /\
    size meta = None /\
    (exists d, duration meta = Some d) /\
    (video_found meta = true ->
     exists f n sz,
       video_fps meta = Some f /\ adjust_fps f = Ok f /\
       video_n_frames meta = Some n /\
       video_duration meta = duration meta /\
       video_size meta = Some sz /\
       parse_rotation (splitlines raw) = Ok (video_rotation meta)).
Proof.
  intros popen ff convert filename pi cd src df raw meta Hraw H.
  unfold ffmpeg_parse_infos in H.
  destruct cd; cbn [negb] in H; cbv iota in H; [|discriminate H].
  rewrite Hraw, bind_ret in H. cbv beta in H.
  apply bind_Ok in H. destruct H as (d & Hd & H).
  apply bind_Ok in H. destruct H as (meta1 & Hm1 & H). injection H as <-.
  cbn [set_audio video_found audio_found size duration video_fps video_n_frames
       video_duration video_size video_rotation fst].
  rewrite parse_audio_infos_found.
  cbn [video_found set_video_found set_duration] in Hm1.
  rewrite <- (found_iff_exists is_video_line (splitlines raw)).
  destruct (filter is_video_line (splitlines raw)) as [|line0 rest] eqn:Hlines.
  - cbv iota in Hm1. injection Hm1 as <-. cbn.
    split; [reflexivity|]. split; [reflexivity|]. split; [reflexivity|].
    split; [exists d; reflexivity | discriminate].
  - cbv iota in Hm1.
    destruct (video_branch_fields popen filename src (splitlines raw) d line0 rest
                meta1 Hlines Hm1)
      as (Hf & Hs & _ & f & n & dd & sz & Hfps & Hst & Hn & Hvd & Hdur & Hsz & _ & Hrot).
    split; [exact Hf|]. split; [reflexivity|]. split; [exact Hs|].
    split; [exists dd; exact Hdur|].
    intros _. exists f, n, sz. repeat split; try assumption.
    rewrite Hvd, Hdur. reflexivity.
Qed.

Lemma returned_record_is_consistent_witness :
  exists meta,
    ffmpeg_parse_infos (sample_popen video_only_output) (lit "ffmpeg")
      convert_to_seconds_spec (lit "clip.mp4") false true (lit "tbr") true = Ok meta /\
    video_found meta = true /\ audio_found meta = false /\ size meta = None /\
    video_duration meta = duration meta.
Proof.
  destruct (ffmpeg_parse_infos (sample_popen video_only_output) (lit "ffmpeg")
              convert_to_seconds_spec (lit "clip.mp4") false true (lit "tbr") true)
    as [meta|e] eqn:E; [|vm_compute in E; discriminate E].
  exists meta. split; [reflexivity|].
  destruct (returned_record_is_consistent (sample_popen video_only_output) (lit "ffmpeg")
              convert_to_seconds_spec (lit "clip.mp4") false true (lit "tbr") true
              video_only_output meta)
    as (Hv & Ha & Hs & _ & Hvideo); [vm_compute; reflexivity | exact E |].
  assert (Hfound : video_found meta = true) by (rewrite Hv; vm_compute; reflexivity).
  split; [exact Hfound|]. split; [rewrite Ha; vm_compute; reflexivity|].
  split; [exact Hs|].
  destruct (Hvideo Hfound) as (f & n & sz & _ & _ & _ & Hd & _). exact Hd.
Defined.

(** ** The frame-counting fallback *)



(** ** Construction of image clips *)

Section ConstructionFacts.

Variable AudioClip : Type.
Variable imread : str -> result ndarray.

Let init := ImageClip_init AudioClip imread.

(** The last three statements of the constructor. *)
Lemma init_inr_eq (img : ndarray) is_mask transparent fromalpha duration :
  init (inr img) is_mask transparent fromalpha duration =
  (r <- (if Nat.eqb (ndim img) 3 then
           if Nat.eqb (dim img 2) 4 then
             if fromalpha then
               a <- index_channel img 3 ;; Ok (None, normalized a)
             else if is_mask then
               a <- index_channel img 0 ;; Ok (None, normalized a)
             else if transparent then
               a <- index_channel img 3 ;;
               Ok (Some (MkClip (fun _ => normalized a) (normalized a)
                           (rev (firstn 2 (shape (normalized a)))) true None None None),
                   channels_upto img 3)
             else Ok (None, img)
           else if is_mask then
             a <- index_channel img 0 ;; Ok (None, normalized a)
           else Ok (None, img)
         else Ok (None, img)) ;;
   let (mask, img') := (r : option (Clip AudioClip) * ndarray) in
   Ok (MkClip (fun _ => img') img' (rev (firstn 2 (shape img'))) is_mask duration mask None)).
Proof.
  unfold init, ImageClip_init. cbn [ImageClip_init_depth]. rewrite bind_ret.
  destruct (ndim img =? 3)%nat; [|reflexivity].
  destruct (dim img 2 =? 4)%nat; [|reflexivity].
  destruct fromalpha; [reflexivity|].
  destruct is_mask; [reflexivity|].
  destruct transparent; [|reflexivity].
  unfold index_channel. destruct (3 <? dim img 2)%nat; [|reflexivity].
  rewrite !bind_ret.
  change (ndim (normalized (channel img 3)) =? 3)%nat with false.
  reflexivity.
Qed.

Lemma index_channel_Ok (img a : ndarray) (k : nat) :
  index_channel img k = Ok a -> a = channel img k /\ (k < dim img 2)%nat.
Proof.
  unfold index_channel. destruct (k <? dim img 2)%nat eqn:E; [|discriminate].
  intros H. injection H as <-. apply Nat.ltb_lt in E. split; [reflexivity | exact E].
Qed.

(** X14: every clip that [ImageClip.__init__] builds has as [size] the
    first two dimensions of its image in reverse order, shows its image at
    every time, keeps the given [is_mask] and [duration] and has no audio.
    It has a mask only when built with [is_mask] and [fromalpha] false and
    [transparent] true, and the mask is itself a mask clip of the same
    size, without a mask of its own. *)
Theorem constructed_clip_invariant :
  forall arg is_mask transparent fromalpha duration clip,
    init arg is_mask transparent fromalpha duration = Ok clip ->
    clip_size clip = rev (firstn 2 (shape (clip_img clip))) /\
    (forall t, get_frame clip t = clip_img clip) /\
    clip_is_mask clip = is_mask /\
    clip_duration clip = duration /\
    clip_audio clip = None /\
    (forall m,
        clip_mask clip = Some m ->
        is_mask = false /\ fromalpha = false /\ transparent = true /\
        clip_is_mask m = true /\ clip_mask m = None /\
        clip_size m = clip_size clip /\
        (forall t, get_frame m t = clip_img m)).
Proof.
  intros arg is_mask transparent fromalpha duration clip H.
  assert (Hinr : exists img, init (inr img) is_mask transparent fromalpha duration = Ok clip).
  { destruct arg as [path|img]; [|exists img; exact H].
    unfold init in H. rewrite ImageClip_init_path in H.
    apply bind_Ok in H. destruct H as (a & _ & H). exists a. exact H. }
  clear H. destruct Hinr as (img & H). rewrite init_inr_eq in H.
  apply bind_Ok in H. destruct H as ([mask img'] & Hr & H). injection H as <-.
  cbn [clip_size clip_img clip_is_mask clip_duration clip_audio clip_mask get_frame
       clip_make_frame].
  repeat (split; [reflexivity|]).
  intros m Hm. subst mask.
  destruct (ndim img =? 3)%nat; [|discriminate Hr].
  destruct (dim img 2 =? 4)%nat.
  - destruct fromalpha.
    { apply bind_Ok in Hr. destruct Hr as (a & _ & Hr). discriminate Hr. }
    destruct is_mask.
    { apply bind_Ok in Hr. destruct Hr as (a & _ & Hr). discriminate Hr. }
    destruct transparent; [|discriminate Hr].
    apply bind_Ok in Hr. destruct Hr as (a & Ha & Hr). injection Hr as <- <-.
    repeat (split; [reflexivity|]).
    split; [|intros t; reflexivity].
    apply index_channel_Ok in Ha. destruct Ha as [-> _]. reflexivity.
  - destruct is_mask; [|discriminate Hr].
    apply bind_Ok in Hr. destruct Hr as (a & _ & Hr). discriminate Hr.
Qed.


(** X15: with [fromalpha] the image of a four-channel buffer becomes its
    fourth channel divided by 255; with [is_mask] and without [fromalpha]
    the image of a buffer with at least one channel becomes its first
    channel divided by 255.  In both cases no mask is attached.  With
    [is_mask], a 3-dimensional buffer without any channel raises
    [IndexError]. *)
Theorem single_channel_modes :
  forall (img : ndarray) (h w c : nat) transparent duration,
    shape img = [h; w; c] ->
    (c = 4%nat ->
     forall is_mask,
     exists clip,
       init (inr img) is_mask transparent true duration = Ok clip /\
       clip_mask clip = None /\ clip_is_mask clip = is_mask /\
       shape (clip_img clip) = [h; w] /\
       (forall i j, (i < h)%nat -> (j < w)%nat ->
                    at2 (clip_img clip) i j = Qred (1 * at3 img i j 3 / 255))) /\
    ((0 < c)%nat ->
     exists clip,
       init (inr img) true transparent false duration = Ok clip /\
       clip_mask clip = None /\
       shape (clip_img clip) = [h; w] /\
       (forall i j, (i < h)%nat -> (j < w)%nat ->
                    at2 (clip_img clip) i j = Qred (1 * at3 img i j 0 / 255))) /\
    (c = 0%nat ->
     init (inr img) true transparent false duration = Raise IndexError).
Proof.
  intros img h w c transparent duration Hs.
  assert (Hnd : ndim img = 3%nat) by (unfold ndim; rewrite Hs; reflexivity).
  assert (Hd2 : dim img 2 = c) by (unfold dim; rewrite Hs; reflexivity).
  assert (Hch : forall k, (k < c)%nat ->
            shape (normalized (channel img k)) = [h; w] /\
            forall i j, (i < h)%nat -> (j < w)%nat ->
              at2 (normalized (channel img k)) i j = Qred (1 * at3 img i j k / 255)).
  { intros k Hk. split.
    - unfold normalized, channel, dim. rewrite Hs. reflexivity.
    - intros i j Hi Hj.
      destruct (channel_at img h w c k i j Hs Hi Hj) as [Hcs Hca].
      rewrite (normalized_at2 _ h w i j Hcs Hi Hj), Hca; [reflexivity|].
      unfold channel, dim. rewrite Hs. cbn [data nth].
      rewrite length_map, length_seq. reflexivity. }
  split; [|split].
  - intros -> is_mask. rewrite init_inr_eq, Hnd, Hd2. cbn [Nat.eqb].
    rewrite (index_channel_ok img h w 4 3 Hs) by lia. rewrite !bind_ret.
    eexists. split; [reflexivity|].
    cbn [clip_mask clip_is_mask clip_img].
    destruct (Hch 3%nat) as [H1 H2]; [lia|]. repeat split; assumption.
  - intros Hc. rewrite init_inr_eq, Hnd, Hd2.
    rewrite (index_channel_ok img h w c 0 Hs Hc).
    cbn [Nat.eqb]. rewrite !bind_ret.
    destruct (c =? 4)%nat; rewrite ?bind_ret;
      (eexists; split; [reflexivity|];
       cbn [clip_mask clip_img];
       destruct (Hch 0%nat Hc) as [H1 H2]; repeat split; assumption).
  - intros ->. rewrite init_inr_eq, Hnd, Hd2. cbn [Nat.eqb].
    unfold index_channel. rewrite Hd2. reflexivity.
Qed.

Lemma init_as_is (img : ndarray) is_mask transparent fromalpha duration :
  ndim img <> 3%nat \/
  (dim img 2 <> 4%nat /\ is_mask = false) \/
  (is_mask = false /\ transparent = false /\ fromalpha = false) ->
  init (inr img) is_mask transparent fromalpha duration =
  Ok (MkClip (fun _ => img) img (rev (firstn 2 (shape img))) is_mask duration None None).
Proof.
  intros H. rewrite init_inr_eq.
  destruct (ndim img =? 3)%nat eqn:End; [|reflexivity].
  apply Nat.eqb_eq in End.
  destruct H as [H | [[H ->] | (-> & -> & ->)]]; [contradiction| |].
  - apply Nat.eqb_neq in H. rewrite H. reflexivity.
  - destruct (dim img 2 =? 4)%nat; reflexivity.
Qed.

(** X16: a buffer that is not 3-dimensional, a buffer without exactly four
    channels when [is_mask] is false, and any buffer when [is_mask],
    [transparent] and [fromalpha] are all false, is taken as the image
    unchanged, without a mask. *)
Theorem buffer_used_as_is :
  forall (img : ndarray) is_mask transparent fromalpha duration,
    ndim img <> 3%nat \/
    (dim img 2 <> 4%nat /\ is_mask = false) \/
    (is_mask = false /\ transparent = false /\ fromalpha = false) ->
    init (inr img) is_mask transparent fromalpha duration =
    Ok (MkClip (fun _ => img) img (rev (firstn 2 (shape img))) is_mask duration None None).
Proof. exact init_as_is. Qed.

End ConstructionFacts.

Lemma constructed_clip_invariant_witness :
  exists clip m,
    ImageClip_init unit no_file (inr rgba_sample) false true false None = Ok clip /\
    clip_mask clip = Some m /\
    clip_size clip = [2; 1]%nat /\ clip_size m = [2; 1]%nat /\ clip_mask m = None.
Proof.
  destruct (ImageClip_init unit no_file (inr rgba_sample) false true false None)
    as [clip|e] eqn:E; [|vm_compute in E; discriminate E].
  destruct (clip_mask clip) as [m|] eqn:Em.
  2:{ vm_compute in E. injection E as <-. discriminate Em. }
  exists clip, m. split; [reflexivity|]. split; [exact Em|].
  destruct (constructed_clip_invariant unit no_file _ _ _ _ _ clip E)
    as (Hsize & _ & _ & _ & _ & Hmask).
  destruct (Hmask m Em) as (_ & _ & _ & _ & Hmm & Hms & _).
  assert (Hs : clip_size clip = [2; 1]%nat).
  { vm_compute in E. injection E as <-. reflexivity. }
  split; [exact Hs|]. split; [rewrite Hms; exact Hs | exact Hmm].
Defined.

Lemma single_channel_modes_witness :
  (exists clip,
      ImageClip_init unit no_file (inr rgba_sample) false true true None = Ok clip /\
      clip_mask clip = None /\ at2 (clip_img clip) 0 1 = 1 # 5) /\
  ImageClip_init unit no_file (inr (MkArray [2; 2; 0]%nat [])) true true false None
  = Raise IndexError.
Proof.
  split.
  - destruct (proj1 (single_channel_modes unit no_file rgba_sample 1 2 4 true None
                       eq_refl) eq_refl false)
      as (clip & Hinit & Hmask & _ & _ & Hat).
    exists clip. split; [exact Hinit|]. split; [exact Hmask|].
    rewrite (Hat 0%nat 1%nat) by lia. reflexivity.
  - apply (proj2 (proj2 (single_channel_modes unit no_file (MkArray [2; 2; 0]%nat [])
                           2 2 0 true None eq_refl))).
    reflexivity.
Defined.

Lemma buffer_used_as_is_witness :
  clip_img_of (ImageClip_init unit no_file (inr gray_sample) false true false None)
  = Some gray_sample.
Proof.
  rewrite (buffer_used_as_is unit no_file gray_sample false true false None).
  - reflexivity.
  - left. discriminate.
Defined.

(** ** One-shot image transforms *)

Section TransformFacts.

Variable AudioClip : Type.
Variable mask_image_transform :
  Clip AudioClip -> (ndarray -> result ndarray) -> result (Clip AudioClip).
Variable audio_image_transform :
  AudioClip -> (ndarray -> result ndarray) -> result AudioClip.

Let image_transform :=
  ImageClip_image_transform AudioClip mask_image_transform audio_image_transform.

(** X17: [image_transform] applies [image_func] once, to the frame at time
    0.  An exception of [image_func] leaves the method.  With the default
    [apply_to] the new clip shows the transformed array at every time, has
    its size taken from that array and keeps mask, audio, [is_mask] and
    duration; with [apply_to = ['mask']] the mask is replaced by its own
    [image_transform]. *)
Theorem image_transform_once :
  forall (self : Clip AudioClip) (image_func : ndarray -> result ndarray),
    (forall e, image_func (get_frame self 0) = Raise e ->
               forall apply_to, image_transform self image_func apply_to = Raise e) /\
    (forall arr,
        image_func (get_frame self 0) = Ok arr ->
        exists c,
          image_transform self image_func None = Ok c /\
          clip_img c = arr /\
          (forall t, get_frame c t = arr) /\
          clip_size c = rev (firstn 2 (shape arr)) /\
          clip_mask c = clip_mask self /\
          clip_audio c = clip_audio self /\
          clip_is_mask c = clip_is_mask self /\
          clip_duration c = clip_duration self) /\
    (forall arr m m',
        image_func (get_frame self 0) = Ok arr ->
        clip_mask self = Some m ->
        mask_image_transform m image_func = Ok m' ->
        exists c,
          image_transform self image_func (Some [AttrMask]) = Ok c /\
          clip_img c = arr /\ clip_mask c = Some m' /\ clip_audio c = clip_audio self).
Proof.
  intros self image_func. unfold image_transform, ImageClip_image_transform.
  split; [|split].
  - intros e He apply_to. rewrite He. reflexivity.
  - intros arr Harr. rewrite Harr, bind_ret. eexists. split; [reflexivity|].
    repeat split.
  - intros arr m m' Harr Hm Hm'. rewrite Harr, bind_ret.
    cbn [image_transform_loop image_transform_attr clip_mask]. rewrite Hm, Hm'.
    rewrite !bind_ret. eexists. split; [reflexivity|]. repeat split.
Qed.

(** X18: transforming with [f] and then with [g] gives the same clip as
    transforming once with the composition of [f] and [g]. *)
Theorem image_transform_composes :
  forall (self : Clip AudioClip) (f g : ndarray -> result ndarray) a1 a2,
    f (get_frame self 0) = Ok a1 ->
    g a1 = Ok a2 ->
    exists c1 c2,
      image_transform self f None = Ok c1 /\
      image_transform c1 g None = Ok c2 /\
      clip_img c2 = a2 /\
      (forall t, get_frame c2 t = a2) /\
      image_transform self (fun a => b <- f a ;; g b) None = Ok c2.
Proof.
  intros self f g a1 a2 Hf Hg. unfold image_transform, ImageClip_image_transform.
  rewrite Hf, !bind_ret. eexists. eexists. split; [reflexivity|].
  cbn [get_frame clip_make_frame image_transform_loop]. rewrite Hg, !bind_ret.
  split; [reflexivity|]. repeat split.
Qed.

End TransformFacts.

Lemma image_transform_once_witness :
  exists c,
    ImageClip_image_transform unit (fun m _ => Ok m) (fun a _ => Ok a)
      (MkClip (fun _ => gray_sample) gray_sample [3; 2]%nat false None None None)
      first_row None = Ok c /\
    clip_size c = [3; 1]%nat /\ data (clip_img c) = [0; 51; 102].
Proof.
  destruct (proj1 (proj2 (image_transform_once unit (fun m _ => Ok m) (fun a _ => Ok a)
                            (MkClip (fun _ => gray_sample) gray_sample [3; 2]%nat
                               false None None None) first_row))
              (MkArray [1; 3]%nat [0; 51; 102]) eq_refl)
    as (c & Hc & Himg & _ & Hsize & _).
  exists c. split; [exact Hc|]. split; [exact Hsize | rewrite Himg; reflexivity].
Defined.

Lemma image_transform_composes_witness :
  exists c1 c2,
    ImageClip_image_transform unit (fun m _ => Ok m) (fun a _ => Ok a)
      (MkClip (fun _ => gray_sample) gray_sample [3; 2]%nat false None None None)
      first_row None = Ok c1 /\
    ImageClip_image_transform unit (fun m _ => Ok m) (fun a _ => Ok a) c1 halve None
    = Ok c2 /\
    data (clip_img c2) = [0; 51 # 2; 51].
Proof.
  destruct (image_transform_composes unit (fun m _ => Ok m) (fun a _ => Ok a)
              (MkClip (fun _ => gray_sample) gray_sample [3; 2]%nat false None None None)
              first_row halve (MkArray [1; 3]%nat [0; 51; 102])
              (MkArray [1; 3]%nat [0; 51 # 2; 51]) eq_refl eq_refl)
    as (c1 & c2 & H1 & H2 & Himg & _).
  exists c1, c2. split; [exact H1|]. split; [exact H2|]. rewrite Himg. reflexivity.
Defined.

(** ** Clips of one color *)

Lemma nth_repeat_in {A : Type} (v d : A) (n p : nat) :
  (p < n)%nat -> nth p (repeat v n) d = v.
Proof.
  revert p. induction n as [|n IH]; intros p Hp; [lia|].
  destruct p as [|p]; cbn [repeat nth]; [reflexivity|]. apply IH. lia.
Qed.

Lemma nth_tiled {A : Type} (cs : list A) (d : A) (n p k : nat) :
  (p < n)%nat -> (k < length cs)%nat ->
  nth (p * length cs + k) (List.concat (repeat cs n)) d = nth k cs d.
Proof.
  revert p. induction n as [|n IH]; intros p Hp Hk; [lia|].
  cbn [repeat List.concat]. destruct p as [|p].
  - cbn [Nat.mul Nat.add]. apply app_nth1. exact Hk.
  - rewrite app_nth2 by (cbn [Nat.mul]; lia).
    replace (S p * length cs + k - length cs)%nat with (p * length cs + k)%nat
      by (cbn [Nat.mul]; lia).
    apply IH; [lia | exact Hk].
Qed.

Section ColorFacts.

Variable AudioClip : Type.
Variable imread : str -> result ndarray.

Let ColorClip := ColorClip_init AudioClip imread.

Lemma ColorClip_mask_eq (w h : nat) (v : float) color duration :
  (color = None /\ v = 0) \/ color = Some (ColorScalar v) ->
  ColorClip (w, h) color true duration =
  Return (MkClip (fun _ => MkArray [h; w] (repeat v (w * h)))
            (MkArray [h; w] (repeat v (w * h))) [w; h] true duration None None).
Proof.
  intros H. unfold ColorClip, ColorClip_init.
  assert (E : (if true then
                 match color with
                 | None => Return ([h; w], ColorScalar 0)
                 | Some (ColorScalar v0) => Return ([h; w], ColorScalar v0)
                 | Some (ColorSeq _) =>
                     Throw (Exception (lit "Color has to be a scalar when mask is true"))
                 end
               else Return ([h; w], ColorScalar 0)) = Return ([h; w], ColorScalar v)).
  { destruct H as [[-> ->] | ->]; reflexivity. }
  cbv iota in E. cbv iota. rewrite E.
  rewrite (init_as_is AudioClip imread); [reflexivity|].
  left. discriminate.
Qed.

Lemma ColorClip_color_eq (w h : nat) (cs : list float) color duration :
  (color = None /\ cs = [0; 0; 0]) \/ color = Some (ColorSeq cs) ->
  ColorClip (w, h) color false duration =
  match ImageClip_init AudioClip imread
          (inr (MkArray [h; w; length cs] (List.concat (repeat cs (w * h)))))
          false true false duration with
  | Ok clip => Return clip
  | Raise e => Throw (Builtin e)
  end.
Proof.
  intros H. unfold ColorClip, ColorClip_init.
  destruct H as [[-> ->] | ->]; reflexivity.
Qed.

(** X19: [ColorClip] raises [Exception] for a sequence as the color of a
    mask and for a number as the color of a clip that is not a mask.
    Otherwise, for a color that has not four components, the clip has the
    size [(w, h)], no mask, and the same value at every pixel and every
    time: the given number (0 by default) for a mask, the given components
    (black by default) for a color clip. *)
Theorem ColorClip_is_uniform :
  forall (w h : nat) (duration : option float),
    (forall cs,
        ColorClip (w, h) (Some (ColorSeq cs)) true duration =
        Throw (Exception (lit "Color has to be a scalar when mask is true"))) /\
    (forall v,
        ColorClip (w, h) (Some (ColorScalar v)) false duration =
        Throw (Exception (lit "Color has to contain RGB of the clip"))) /\
    (forall color v,
        (color = None /\ v = 0) \/ color = Some (ColorScalar v) ->
        exists clip,
          ColorClip (w, h) color true duration = Return clip /\
          clip_is_mask clip = true /\ clip_mask clip = None /\
          clip_size clip = [w; h] /\
          (forall t i j, (i < h)%nat -> (j < w)%nat -> at2 (get_frame clip t) i j = v)) /\
    (forall color cs,
        (color = None /\ cs = [0; 0; 0]) \/ color = Some (ColorSeq cs) ->
        length cs <> 4%nat ->
        exists clip,
          ColorClip (w, h) color false duration = Return clip /\
          clip_is_mask clip = false /\ clip_mask clip = None /\
          clip_size clip = [w; h] /\
          (forall t i j k, (i < h)%nat -> (j < w)%nat -> (k < length cs)%nat ->
                           at3 (get_frame clip t) i j k = nth k cs 0)).
Proof.
  intros w h duration. split; [|split; [|split]].
  - intros cs. reflexivity.
  - intros v. reflexivity.
  - intros color v H. rewrite (ColorClip_mask_eq w h v color duration H).
    eexists. split; [reflexivity|]. repeat split.
    intros t i j Hi Hj. cbn [get_frame clip_make_frame]. unfold at2, dim. cbn [shape data nth].
    apply nth_repeat_in. nia.
  - intros color cs H Hlen. rewrite (ColorClip_color_eq w h cs color duration H).
    rewrite (init_as_is AudioClip imread).
    2:{ right. left. split; [exact Hlen | reflexivity]. }
    eexists. split; [reflexivity|]. repeat split.
    intros t i j k Hi Hj Hk. cbn [get_frame clip_make_frame]. unfold at3, dim.
    cbn [shape data nth].
    apply nth_tiled; [nia | exact Hk].
Qed.

(** X20: a [ColorClip] that is not a mask, given a color of four components,
    shows the first three at every pixel and carries a mask whose value at
    every pixel is the fourth component divided by 255. *)
Theorem ColorClip_with_alpha :
  forall (w h : nat) (r g b a : float) (duration : option float),
    exists clip m,
      ColorClip (w, h) (Some (ColorSeq [r; g; b; a])) false duration = Return clip /\
      clip_size clip = [w; h] /\
      shape (clip_img clip) = [h; w; 3%nat] /\
      (forall i j k, (i < h)%nat -> (j < w)%nat -> (k < 3)%nat ->
                     at3 (clip_img clip) i j k = nth k [r; g; b] 0) /\
      clip_mask clip = Some m /\ clip_is_mask m = true /\
      clip_size m = [w; h] /\
      (forall i j, (i < h)%nat -> (j < w)%nat ->
                   at2 (clip_img m) i j = Qred (1 * a / 255)).
Proof.
  intros w h r g b a duration.
  rewrite (ColorClip_color_eq w h [r; g; b; a] _ duration) by (right; reflexivity).
  set (arr := MkArray [h; w; length [r; g; b; a]]
                (List.concat (repeat [r; g; b; a] (w * h)))).
  assert (Hs : shape arr = [h; w; 4%nat]) by reflexivity.
  assert (Hat : forall i j k, (i < h)%nat -> (j < w)%nat -> (k < 4)%nat ->
                              at3 arr i j k = nth k [r; g; b; a] 0).
  { intros i j k Hi Hj Hk. unfold at3, dim, arr. cbn [shape data nth length].
    apply (nth_tiled [r; g; b; a] 0 (w * h) (i * w + j) k); [nia | exact Hk]. }
  rewrite (init_inr_eq AudioClip imread).
  assert (Hnd : ndim arr = 3%nat) by reflexivity.
  assert (Hd2 : dim arr 2 = 4%nat) by reflexivity.
  rewrite Hnd, Hd2. cbn [Nat.eqb].
  rewrite (index_channel_ok arr h w 4 3 Hs) by lia. rewrite !bind_ret.
  eexists. eexists. split; [reflexivity|].
  cbn [clip_size clip_img clip_mask clip_is_mask].
  split; [reflexivity|]. split; [reflexivity|].
  split.
  { intros i j k Hi Hj Hk.
    destruct (channels_upto_at arr h w 4 3 i j k Hs ltac:(lia) Hi Hj Hk) as [_ ->].
    rewrite Hat by lia.
    destruct k as [|[|[|k]]]; [reflexivity | reflexivity | reflexivity | lia]. }
  split; [reflexivity|]. split; [reflexivity|]. split; [reflexivity|].
  intros i j Hi Hj.
  destruct (channel_at arr h w 4 3 i j Hs Hi Hj) as [Hcs Hca].
  cbn [clip_img].
  rewrite (normalized_at2 _ h w i j Hcs Hi Hj), Hca.
  - rewrite Hat by lia. reflexivity.
  - unfold channel, dim. rewrite Hs. cbn [data nth]. rewrite length_map, length_seq.
    reflexivity.
Qed.

End ColorFacts.

Lemma ColorClip_is_uniform_witness :
  exists clip,
    ColorClip_init unit no_file (3%nat, 2%nat) (Some (ColorSeq [255; 128; 0])) false None
    = Return clip /\
    clip_size clip = [3; 2]%nat /\ at3 (get_frame clip 0) 1 2 1 = 128.
Proof.
  destruct (proj2 (proj2 (proj2 (ColorClip_is_uniform unit no_file 3 2 None)))
              (Some (ColorSeq [255; 128; 0])) [255; 128; 0]
              (or_intror eq_refl) ltac:(discriminate))
    as (clip & Hinit & _ & _ & Hsize & Hat).
  exists clip. split; [exact Hinit|]. split; [exact Hsize|].
  exact (Hat 0 1%nat 2%nat 1%nat ltac:(lia) ltac:(lia) ltac:(cbn; lia)).
Defined.

Lemma ColorClip_with_alpha_witness :
  exists clip m,
    ColorClip_init unit no_file (3%nat, 2%nat) (Some (ColorSeq [255; 128; 0; 51])) false None
    = Return clip /\
    clip_mask clip = Some m /\ at2 (clip_img m) 1 2 = 1 # 5 /\
    at3 (clip_img clip) 1 2 1 = 128.
Proof.
  destruct (ColorClip_with_alpha unit no_file 3 2 255 128 0 51 None)
    as (clip & m & Hinit & _ & _ & Hat3 & Hmask & _ & _ & Hat2).
  exists clip, m. split; [exact Hinit|]. split; [exact Hmask|].
  split.
  - rewrite (Hat2 1%nat 2%nat) by lia. reflexivity.
  - rewrite (Hat3 1%nat 2%nat 1%nat) by lia. reflexivity.
Defined.

(** ** Orientation of a decoded picture *)

Lemma str_eqb_refl (s : str) : str_eqb s s = true.
Proof.
  induction s as [|c s IH]; cbn [str_eqb]; [reflexivity|].
  rewrite Ascii.eqb_refl, IH. reflexivity.
Qed.

Lemma index_of_absent (name : str) (values : list str) :
  forallb (fun v => negb (str_eqb v name)) values = true ->
  index_of name values = Raise ValueError.
Proof.
  induction values as [|v values IH]; intros H; [reflexivity|].
  cbn [forallb] in H. apply andb_prop in H. destruct H as [Hv H].
  apply negb_true_iff in Hv. cbn [index_of]. rewrite Hv, (IH H). reflexivity.
Qed.

Lemma orientation_key_found (before after : list (Z * str)) (key : Z) (name : str) :
  forallb (fun v => negb (str_eqb v name)) (map snd before) = true ->
  (i <- index_of name (map snd (before ++ (key, name) :: after)) ;;
   index_nth (map fst (before ++ (key, name) :: after)) i) = Ok key.
Proof.
  induction before as [|[k v] before IH]; intros H.
  - cbn [app map snd fst index_of]. rewrite str_eqb_refl. reflexivity.
  - cbn [map snd forallb] in H. apply andb_prop in H. destruct H as [Hv H].
    apply negb_true_iff in Hv. specialize (IH H).
    cbn [app map snd fst index_of]. rewrite Hv.
    destruct (index_of name (map snd (before ++ (key, name) :: after))) as [i|e];
      [|discriminate IH].
    rewrite bind_ret in IH. rewrite !bind_ret. exact IH.
Qed.

(** X21: [rotate] returns the picture unchanged when it has no EXIF entry
    and when no tag is named ['Orientation'].  Otherwise the value stored
    under the first tag of that name decides: 3 turns the picture by 180
    degrees, 6 by 270 and 8 by 90, each with [expand]; any other value, or
    none, leaves the picture unchanged. *)
Theorem rotate_by_exif_orientation :
  forall (TAGS : list (Z * str)) (Image_rotate : Image -> Z -> bool -> Image) (im : Image),
    (im_exif im = [] -> rotate TAGS Image_rotate im = im) /\
    (forallb (fun v => negb (str_eqb v (lit "Orientation"))) (map snd TAGS) = true ->
     rotate TAGS Image_rotate im = im) /\
    (forall before after key,
        TAGS = before ++ (key, lit "Orientation") :: after ->
        forallb (fun v => negb (str_eqb v (lit "Orientation"))) (map snd before) = true ->
        im_exif im <> [] ->
        rotate TAGS Image_rotate im =
        match exif_get (im_exif im) key with
        | Some 3%Z => Image_rotate im 180%Z true
        | Some 6%Z => Image_rotate im 270%Z true
        | Some 8%Z => Image_rotate im 90%Z true
        | _ => im
        end).
Proof.
  intros TAGS Image_rotate im. split; [|split].
  - intros H. unfold rotate. rewrite H. reflexivity.
  - intros H. unfold rotate. destruct (im_exif im); [reflexivity|].
    rewrite (index_of_absent _ _ H). reflexivity.
  - intros before after key -> Hb Hne. unfold rotate.
    destruct (im_exif im) as [|e l]; [contradiction|].
    rewrite (orientation_key_found before after key _ Hb). reflexivity.
Qed.

Lemma rotate_by_exif_orientation_witness :
  rotate exif_tags grid_rotate (MkImage [[[1]; [2]]; [[3]; [4]]] [(274%Z, 6%Z)])
  = MkImage [[[3]; [1]]; [[4]; [2]]] [(274%Z, 6%Z)] /\
  rotate [(271%Z, lit "Make")] grid_rotate upside_down_picture = upside_down_picture.
Proof.
  split.
  - etransitivity;
      [exact (proj2 (proj2 (rotate_by_exif_orientation exif_tags grid_rotate
                              (MkImage [[[1]; [2]]; [[3]; [4]]] [(274%Z, 6%Z)])))
                [(271%Z, lit "Make"); (272%Z, lit "Model")] [] 274%Z
                eq_refl eq_refl ltac:(discriminate))
      | reflexivity].
  - apply (proj1 (proj2 (rotate_by_exif_orientation [(271%Z, lit "Make")] grid_rotate
                           upside_down_picture))).
    reflexivity.
Defined.
